(** * study-snap-card: flashcard client

    A shallow embedding of the client code of the flashcard application:

    - [ClaudeService.generateFlashcards] (services/ClaudeService.ts): the
      extraction of a JSON array from the model's reply and the filter that
      keeps the well-formed cards;
    - [FileUpload.handleUpload] (components/FileUpload.tsx);
    - [CreateCardForm.handleFileSelect] and [handleFileUpload]
      (components/CreateCardForm.tsx);
    - [StudyMode.nextCard] and [prevCard] (components/StudyMode.tsx);
    - [Flashcard.handleFlip] (components/Flashcard.tsx);
    - [Index.addCard] and [addCardsFromDocument] (pages/Index.tsx).

    React state is modelled by explicit state passing: a handler is a function
    from the component's state (and the event's payload) to the next state and
    the list of effects it performs (toasts, network requests, callbacks to the
    parent).  Exceptions are modelled by a sum type. *)

From Stdlib Require Import Ascii String.
From Stdlib Require Import List ZArith NArith Bool Lia.
From Stdlib Require Import Numbers.DecimalString.
From Stdlib Require Numbers.DecimalPos Numbers.DecimalZ.
Import ListNotations.

(** ** JavaScript strings

    A JavaScript string is a sequence of UTF-16 code units. *)

Definition code_unit := N.
Bind Scope N_scope with code_unit.
Definition jstring := list code_unit.

(** [js "..."] is the JavaScript string of an ASCII literal. *)
Definition js (s : string) : jstring :=
  List.map N_of_ascii (list_ascii_of_string s).

Arguments js : simpl never.

Fixpoint jstring_eqb (a b : jstring) : bool :=
  match a, b with
  | [], [] => true
  | x :: a', y :: b' => N.eqb x y && jstring_eqb a' b'
  | _, _ => false
  end.

(** White space and line terminators of ECMAScript: what [\s] matches and what
    [String.prototype.trim] strips. *)
Definition is_space (c : code_unit) : bool :=
  (N.eqb c 9 || N.eqb c 10 || N.eqb c 11 || N.eqb c 12 || N.eqb c 13 ||
   N.eqb c 32 || N.eqb c 160 || N.eqb c 5760 ||
   (N.leb 8192 c && N.leb c 8202) ||
   N.eqb c 8232 || N.eqb c 8233 || N.eqb c 8239 || N.eqb c 8287 ||
   N.eqb c 12288 || N.eqb c 65279)%bool.

Fixpoint trimStart (s : jstring) : jstring :=
  match s with
  | c :: s' => if is_space c then trimStart s' else s
  | [] => []
  end.

Definition trimEnd (s : jstring) : jstring := rev (trimStart (rev s)).

Definition trim (s : jstring) : jstring := trimEnd (trimStart s).

(** [s.trim() !== ''] *)
Definition nonblank (s : jstring) : bool :=
  match trim s with [] => false | _ :: _ => true end.

(** [json_text "..."] is [js "..."] with every apostrophe replaced by a double
    quote: it writes JSON texts, whose strings are double-quoted. *)
Definition json_text (s : string) : jstring :=
  List.map (fun c => if N.eqb c 39 then 34%N else c) (js s).

(** The decimal digits of a number, as [String(n)] prints an integer. *)
Definition decimal (z : Z) : jstring :=
  js (NilZero.string_of_int (Z.to_int z)).

(** ** Regular expressions

    The fragment of ECMAScript regular expressions that the service uses: a
    sequence of items, each a character class matched once or under a greedy
    star.  [match_here] is the backtracking matcher at a fixed start position
    (it returns the length of the match), [exec] tries the start positions from
    left to right, as [String.prototype.match] does for a pattern without the
    [g] flag. *)

Inductive item :=
| One (cls : code_unit -> bool)
| Many (cls : code_unit -> bool).

Definition regex := list item.

Fixpoint match_here (r : regex) : jstring -> option nat :=
  match r with
  | [] => fun _ => Some O
  | One p :: r' => fun s =>
      match s with
      | c :: s' => if p c then option_map S (match_here r' s') else None
      | [] => None
      end
  | Many p :: r' =>
      let k := match_here r' in
      fix star (s : jstring) : option nat :=
        match s with
        | c :: s' =>
            if p c then
              match star s' with
              | Some n => Some (S n)
              | None => k s
              end
            else k s
        | [] => k []
        end
  end.

Fixpoint exec (r : regex) (s : jstring) : option jstring :=
  match match_here r s with
  | Some n => Some (firstn n s)
  | None =>
      match s with
      | [] => None
      | _ :: s' => exec r s'
      end
  end.

Definition lbracket : code_unit := 91%N.
Definition rbracket : code_unit := 93%N.

(** [/\[[\s\S]*\]/] *)
Definition json_array_pattern : regex :=
  [ One (N.eqb lbracket);
    Many (fun c => is_space c || negb (is_space c));
    One (N.eqb rbracket) ].

(** The pattern after its opening bracket. *)
Definition closing_tail : regex :=
  [ Many (fun c => is_space c || negb (is_space c)); One (N.eqb rbracket) ].

(** [content_text.match(/\[[\s\S]*\]/)], and [jsonMatch[0]] when it matches. *)
Definition match_json_array (content_text : jstring) : option jstring :=
  exec json_array_pattern content_text.

(** ** JSON values

    The values [JSON.parse] produces.  A number keeps its source text: the code
    only asks for its type and its truthiness.  An object keeps its members in
    source order; a later member with the same key overrides an earlier one. *)

#[local] Set Warnings "-register-all".

Inductive json :=
| JNull
| JBool (b : bool)
| JNumber (lexeme : jstring)
| JString (s : jstring)
| JArray (elements : list json)
| JObject (members : list (jstring * json)).

Inductive jstype := TUndefined | TObject | TBoolean | TNumber | TString.

Definition jstype_eqb (a b : jstype) : bool :=
  match a, b with
  | TUndefined, TUndefined | TObject, TObject | TBoolean, TBoolean
  | TNumber, TNumber | TString, TString => true
  | _, _ => false
  end.

(** [typeof v]; [None] is [undefined]. *)
Definition typeof (v : option json) : jstype :=
  match v with
  | None => TUndefined
  | Some JNull => TObject
  | Some (JBool _) => TBoolean
  | Some (JNumber _) => TNumber
  | Some (JString _) => TString
  | Some (JArray _) => TObject
  | Some (JObject _) => TObject
  end.

(** A JSON number is zero when its mantissa has no digit but [0]. *)
Fixpoint mantissa_is_zero (lexeme : jstring) : bool :=
  match lexeme with
  | [] => true
  | c :: rest =>
      if (N.eqb c 101 || N.eqb c 69)%bool then true
      else if (N.leb 49 c && N.leb c 57)%bool then false
      else mantissa_is_zero rest
  end.

(** The truthiness of a value, as [&&], [!] and [if] see it. *)
Definition truthy (v : json) : bool :=
  match v with
  | JNull => false
  | JBool b => b
  | JNumber lexeme => negb (mantissa_is_zero lexeme)
  | JString s => match s with [] => false | _ => true end
  | JArray _ => true
  | JObject _ => true
  end.

Fixpoint lookup (key : jstring) (members : list (jstring * json)) : option json :=
  match members with
  | [] => None
  | (k, v) :: rest =>
      match lookup key rest with
      | Some w => Some w
      | None => if jstring_eqb k key then Some v else None
      end
  end.

(** [v.key] for the keys the service reads, [front] and [back]: an own
    property of an object; neither [Object.prototype] nor [Array.prototype]
    nor the wrappers of the primitives define them, so that every other value
    gives [undefined]. *)
Definition prop (v : json) (key : jstring) : option json :=
  match v with
  | JObject members => lookup key members
  | _ => None
  end.

(** ** Thrown values *)

(** What a JavaScript computation throws: an instance of [Error] (or of a
    subclass of it such as [SyntaxError] or [TypeError]) with its message, or
    any other value. *)
Inductive thrown :=
| Error (message : jstring)
| NonError.

Inductive result (A : Type) :=
| Ok (a : A)
| Throw (e : thrown).

Arguments Ok {A} a.
Arguments Throw {A} e.

Definition bind {A B : Type} (r : result A) (k : A -> result B) : result B :=
  match r with
  | Ok a => k a
  | Throw e => Throw e
  end.

Notation "x <- r ;; k" := (bind r (fun x => k))
  (at level 61, r at next level, right associativity).

(** ** A JSON parser

    A recursive-descent parser of the JSON grammar (ECMA-404), the grammar
    [JSON.parse] accepts.  The statements about the service below hold for
    every parser; this one evaluates them on concrete replies. *)

Module JSON.

Definition is_ws (c : code_unit) : bool :=
  (N.eqb c 9 || N.eqb c 10 || N.eqb c 13 || N.eqb c 32)%bool.

Fixpoint skip_ws (s : jstring) : jstring :=
  match s with
  | c :: s' => if is_ws c then skip_ws s' else s
  | [] => []
  end.

Definition is_digit (c : code_unit) : bool := (N.leb 48 c && N.leb c 57)%bool.

Definition hex_value (c : code_unit) : option N :=
  if is_digit c then Some (c - 48)%N
  else if (N.leb 97 c && N.leb c 102)%bool then Some (c - 87)%N
  else if (N.leb 65 c && N.leb c 70)%bool then Some (c - 55)%N
  else None.

(** [expect c s] consumes the code unit [c] at the head of [s]. *)
Definition expect (c : code_unit) (s : jstring) : option jstring :=
  match s with
  | x :: s' => if N.eqb x c then Some s' else None
  | [] => None
  end.

Fixpoint expect_all (p s : jstring) : option jstring :=
  match p with
  | [] => Some s
  | c :: p' =>
      match expect c s with
      | Some s' => expect_all p' s'
      | None => None
      end
  end.

Fixpoint take_digits (s : jstring) : jstring * jstring :=
  match s with
  | c :: s' =>
      if is_digit c then let (ds, r) := take_digits s' in (c :: ds, r)
      else ([], s)
  | [] => ([], [])
  end.

(** The characters of a string after its opening quote, up to the closing
    quote; [acc] holds the decoded code units in reverse. *)
Fixpoint string_chars (fuel : nat) (s acc : jstring) : option (jstring * jstring) :=
  match fuel with
  | O => None
  | S fuel' =>
      match s with
      | [] => None
      | c :: s1 =>
          if N.eqb c 34 then Some (rev acc, s1)
          else if N.eqb c 92 then
            match s1 with
            | [] => None
            | e :: s2 =>
                if N.eqb e 34 then string_chars fuel' s2 (34%N :: acc)
                else if N.eqb e 92 then string_chars fuel' s2 (92%N :: acc)
                else if N.eqb e 47 then string_chars fuel' s2 (47%N :: acc)
                else if N.eqb e 98 then string_chars fuel' s2 (8%N :: acc)
                else if N.eqb e 102 then string_chars fuel' s2 (12%N :: acc)
                else if N.eqb e 110 then string_chars fuel' s2 (10%N :: acc)
                else if N.eqb e 114 then string_chars fuel' s2 (13%N :: acc)
                else if N.eqb e 116 then string_chars fuel' s2 (9%N :: acc)
                else if N.eqb e 117 then
                  match s2 with
                  | h1 :: h2 :: h3 :: h4 :: s3 =>
                      match hex_value h1, hex_value h2, hex_value h3, hex_value h4 with
                      | Some a, Some b, Some c', Some d =>
                          string_chars fuel' s3
                            (((a * 16 + b) * 16 + c') * 16 + d :: acc)%N
                      | _, _, _, _ => None
                      end
                  | _ => None
                  end
                else None
            end
          else if N.ltb c 32 then None
          else string_chars fuel' s1 (c :: acc)
      end
  end.

(** A number: an optional minus sign, then [0] or a digit from 1 to 9 and
    any digits, then optionally a point and one digit or more, then
    optionally [e] or [E], an optional sign and one digit or more. *)
Definition number (s : jstring) : option (jstring * jstring) :=
  let (sign, s1) :=
    match expect 45 s with Some r => ([45%N], r) | None => ([], s) end in
  match s1 with
  | [] => None
  | c :: s2 =>
      if is_digit c then
        let (int, s3) :=
          if N.eqb c 48 then ([c], s2)
          else let (ds, r) := take_digits s2 in (c :: ds, r) in
        let frac :=
          match expect 46 s3 with
          | Some r =>
              match take_digits r with
              | ([], _) => None
              | (ds, r') => Some (46%N :: ds, r')
              end
          | None => Some ([], s3)
          end in
        match frac with
        | None => None
        | Some (fr, s4) =>
            match s4 with
            | e :: s5 =>
                if (N.eqb e 101 || N.eqb e 69)%bool then
                  let (esign, s6) :=
                    match s5 with
                    | x :: r =>
                        if (N.eqb x 43 || N.eqb x 45)%bool then ([x], r)
                        else ([], s5)
                    | [] => ([], s5)
                    end in
                  match take_digits s6 with
                  | ([], _) => None
                  | (ds, r') => Some (sign ++ int ++ fr ++ e :: esign ++ ds, r')
                  end
                else Some (sign ++ int ++ fr, s4)
            | [] => Some (sign ++ int ++ fr, s4)
            end
        end
      else None
  end.

Fixpoint value (fuel : nat) (s : jstring) : option (json * jstring) :=
  match fuel with
  | O => None
  | S fuel' =>
      match s with
      | [] => None
      | c :: s1 =>
          if N.eqb c 91 then
            match expect 93 (skip_ws s1) with
            | Some r => Some (JArray [], r)
            | None => elements fuel' (skip_ws s1) []
            end
          else if N.eqb c 123 then
            match expect 125 (skip_ws s1) with
            | Some r => Some (JObject [], r)
            | None => members fuel' (skip_ws s1) []
            end
          else if N.eqb c 34 then
            match string_chars (length s1) s1 [] with
            | Some (str, r) => Some (JString str, r)
            | None => None
            end
          else if N.eqb c 110 then
            option_map (pair JNull) (expect_all (js "null") s)
          else if N.eqb c 116 then
            option_map (pair (JBool true)) (expect_all (js "true") s)
          else if N.eqb c 102 then
            option_map (pair (JBool false)) (expect_all (js "false") s)
          else
            match number s with
            | Some (lexeme, r) => Some (JNumber lexeme, r)
            | None => None
            end
      end
  end
with elements (fuel : nat) (s : jstring) (acc : list json) : option (json * jstring) :=
  match fuel with
  | O => None
  | S fuel' =>
      match value fuel' s with
      | None => None
      | Some (v, r) =>
          match expect 44 (skip_ws r) with
          | Some r' => elements fuel' (skip_ws r') (v :: acc)
          | None =>
              match expect 93 (skip_ws r) with
              | Some r' => Some (JArray (rev (v :: acc)), r')
              | None => None
              end
          end
      end
  end
with members (fuel : nat) (s : jstring) (acc : list (jstring * json))
    : option (json * jstring) :=
  match fuel with
  | O => None
  | S fuel' =>
      match expect 34 s with
      | None => None
      | Some s1 =>
          match string_chars (length s1) s1 [] with
          | None => None
          | Some (key, r) =>
              match expect 58 (skip_ws r) with
              | None => None
              | Some r1 =>
                  match value fuel' (skip_ws r1) with
                  | None => None
                  | Some (v, r2) =>
                      match expect 44 (skip_ws r2) with
                      | Some r3 => members fuel' (skip_ws r3) ((key, v) :: acc)
                      | None =>
                          match expect 125 (skip_ws r2) with
                          | Some r3 => Some (JObject (rev ((key, v) :: acc)), r3)
                          | None => None
                          end
                      end
                  end
              end
          end
      end
  end.

(** [JSON.parse(text)]: one value between optional white space; anything
    else throws a [SyntaxError], whose message depends on the engine. *)
Definition parse (text : jstring) : result json :=
  match value (2 * length text + 2) (skip_ws text) with
  | Some (v, r) =>
      match skip_ws r with
      | [] => Ok v
      | _ :: _ => Throw (Error (js "JSON.parse: unexpected character"))
      end
  | None => Throw (Error (js "JSON.parse: unexpected character"))
  end.

End JSON.


(** ** Files and toasts *)

(** The fields of a DOM [File] that the components read. *)
Record File := {
  name : jstring;
  size : N;          (* in bytes *)
  type : jstring     (* the MIME type *)
}.

Inductive variant := Default | Destructive.

Record Toast := {
  title : jstring;
  description : jstring;
  toast_variant : variant
}.

(** ** services/ClaudeService.ts *)

Module ClaudeService.

Definition BASE_URL : jstring := js "https://api.anthropic.com/v1/messages".

(** The entry [claude_api_key] of [localStorage]. *)
Definition storage := option jstring.

Definition saveApiKey (apiKey : jstring) (st : storage) : storage := Some apiKey.

Definition getApiKey (st : storage) : option jstring := st.

(** The request the service sends: the endpoint, the [x-api-key] header and
    the document text that the prompt is built around. *)
Record Request := {
  url : jstring;
  x_api_key : jstring;
  content : jstring
}.

(** What the service reads of a response: [response.ok]; the message of the
    error it throws when the response is not ok, that is
    [errorData.error?.message] or else the text built from
    [response.status]; and [data.content?.[0]?.text], which is [Throw] when
    the body is not JSON and [Ok None] when the path ends in [undefined]. *)
Record Response := {
  ok : bool;
  error_message : jstring;
  content_text : result (option jstring)
}.

Inductive fetch_outcome :=
| Rejected (e : thrown)
| Resolved (response : Response).

(** The filter's predicate:
    [card && typeof card === 'object' && typeof card.front === 'string' &&
     typeof card.back === 'string' && card.front.trim() !== '' &&
     card.back.trim() !== '']. *)
Definition isValidCard (card : json) : bool :=
  truthy card &&
  jstype_eqb (typeof (Some card)) TObject &&
  jstype_eqb (typeof (prop card (js "front"))) TString &&
  jstype_eqb (typeof (prop card (js "back"))) TString &&
  match prop card (js "front"), prop card (js "back") with
  | Some (JString front), Some (JString back) => nonblank front && nonblank back
  | _, _ => false
  end.

Section Service.

(** The platform: [JSON.parse] and [fetch]. *)
Variable JSON_parse : jstring -> result json.
Variable fetch : Request -> fetch_outcome.

(** From "Validate flashcards format" to the [return]. *)
Definition validateFlashcards (flashcards : json) : result (list json) :=
  match flashcards with
  | JArray elements =>
      let validFlashcards := filter isValidCard elements in
      if Nat.eqb (length validFlashcards) 0
      then Throw (Error (js "No valid flashcards found in response"))
      else Ok validFlashcards
  | _ => Throw (Error (js "Response is not a valid flashcard array"))
  end.

(** From "Extract JSON from response" to the [return]. *)
Definition extractFlashcards (content_text : jstring) : result (list json) :=
  match match_json_array content_text with
  | None => Throw (Error (js "Could not find valid JSON in Claude response"))
  | Some jsonMatch0 =>
      flashcards <- JSON_parse jsonMatch0 ;;
      validateFlashcards flashcards
  end.

(** The [catch] clause: an [Error] is thrown again as it is, any other
    value is replaced. *)
Definition rethrow {A : Type} (r : result A) : result A :=
  match r with
  | Throw NonError => Throw (Error (js "Failed to generate flashcards"))
  | _ => r
  end.

Definition generateFlashcards (st : storage) (content : jstring)
    : result (list json) :=
  match getApiKey st with
  | None | Some [] => Throw (Error (js "API key not found"))
  | Some apiKey =>
      rethrow
        match fetch {| url := BASE_URL; x_api_key := apiKey; content := content |} with
        | Rejected e => Throw e
        | Resolved response =>
            if negb (ok response) then Throw (Error (error_message response))
            else
              text <- content_text response ;;
              match text with
              | None | Some [] =>
                  Throw (Error (js "No response content received from Claude"))
              | Some content_text => extractFlashcards content_text
              end
        end
  end.

End Service.

End ClaudeService.

(** ** components/FileUpload.tsx *)

Module FileUpload.

Record State := {
  file : option File;
  isProcessing : bool;
  progress : Z;
  apiKey : jstring
}.

Inductive effect :=
| ShowToast (t : Toast)
| CardsGenerated (cards : list json)     (* [onCardsGenerated(cards)] *)
| ResetFileInput.                        (* [fileInputRef.current.value = ""] *)

Definition handleFileSelect (files0 : option File) (s : State) : State :=
  match files0 with
  | Some selectedFile =>
      {| file := Some selectedFile; isProcessing := isProcessing s;
         progress := progress s; apiKey := apiKey s |}
  | None => s
  end.

Section Upload.

Variable JSON_parse : jstring -> result json.
Variable fetch : ClaudeService.Request -> ClaudeService.fetch_outcome.
(** [readFileContent]: the text of the file, or the rejection of the
    promise with the reader's error event, which is not an [Error]. *)
Variable readFileContent : File -> result jstring.

(** The [catch] clause of [handleUpload]. *)
Definition processing_failed (error : thrown) : Toast :=
  {| title := js "Processing failed";
     description :=
       match error with
       | Error message => message
       | NonError => js "Failed to process document"
       end;
     toast_variant := Destructive |}.

(** The state after the [finally] clause; the timer that puts the progress
    back to 0 a second later is left out. *)
Definition finished (file' : option File) (s : State) : State :=
  {| file := file'; isProcessing := false; progress := 100;
     apiKey := apiKey s |}.

Definition handleUpload (st : ClaudeService.storage) (s : State)
    : ClaudeService.storage * State * list effect :=
  match file s with
  | None =>
      (st, s,
       [ShowToast {| title := js "No file selected";
                     description := js "Please select a file to process";
                     toast_variant := Destructive |}])
  | Some f =>
      if negb (nonblank (apiKey s)) then
        (st, s,
         [ShowToast {| title := js "API Key required";
                       description := js "Please enter your Claude API key";
                       toast_variant := Destructive |}])
      else
        let st' := ClaudeService.saveApiKey (apiKey s) st in
        match
          fileContent <- readFileContent f ;;
          ClaudeService.generateFlashcards JSON_parse fetch st' fileContent
        with
        | Ok generatedCards =>
            if Nat.ltb 0 (length generatedCards) then
              (st', finished None s,
               [CardsGenerated generatedCards;
                ShowToast
                  {| title := js "Success!";
                     description :=
                       js "Generated " ++
                       decimal (Z.of_nat (length generatedCards)) ++
                       js " flashcards from your document";
                     toast_variant := Default |};
                ResetFileInput])
            else
              (st', finished (Some f) s,
               [ShowToast
                  {| title := js "No cards generated";
                     description :=
                       js "Could not extract questions and answers from the document";
                     toast_variant := Destructive |}])
        | Throw error =>
            (st', finished (Some f) s, [ShowToast (processing_failed error)])
        end
  end.

End Upload.

End FileUpload.

(** ** lib/api.ts *)

Module Api.

(** [import.meta.env.VITE_API_BASE_URL || 'http://localhost:5001'] *)
Definition API_BASE_URL (env : option jstring) : jstring :=
  match env with
  | None | Some [] => js "http://localhost:5001"
  | Some base => base
  end.

Definition getApiUrl (env : option jstring) (endpoint : jstring) : jstring :=
  let cleanEndpoint :=
    match endpoint with
    | c :: _ => if N.eqb c 47 then endpoint else 47%N :: endpoint
    | [] => 47%N :: endpoint
    end in
  API_BASE_URL env ++ cleanEndpoint.

End Api.

(** The cards a document yields, as the upload endpoint returns them and as
    [Index.addCardsFromDocument] receives them: [{front: string, back: string}]. *)
Module Generated.

Record card := { front : jstring; back : jstring }.

End Generated.

(** ** components/CreateCardForm.tsx *)

Module CreateCardForm.

Record State := {
  front : jstring;
  back : jstring;
  selectedFile : option File;
  isUploading : bool
}.

Definition initial : State :=
  {| front := []; back := []; selectedFile := None; isUploading := false |}.

Definition setSelectedFile (f : option File) (s : State) : State :=
  {| front := front s; back := back s; selectedFile := f;
     isUploading := isUploading s |}.

Definition setIsUploading (b : bool) (s : State) : State :=
  {| front := front s; back := back s; selectedFile := selectedFile s;
     isUploading := b |}.

Inductive effect :=
| ShowToast (t : Toast)
| AddCard (front back : jstring)                       (* [onAddCard] *)
| AddCardsFromDocument (cards : list Generated.card)   (* [onAddCardsFromDocument] *)
| ConsoleLog (message : jstring)
| Fetch (url : jstring) (file : File)   (* POST of the form data to [url] *)
| ResetFileInput.

Definition handleSubmit (s : State) : State * list effect :=
  if nonblank (front s) && nonblank (back s) then
    ({| front := []; back := []; selectedFile := selectedFile s;
        isUploading := isUploading s |},
     [AddCard (trim (front s)) (trim (back s))])
  else (s, []).

Definition maxSize : N := 5 * 1024 * 1024.

Definition allowedTypes : list jstring :=
  [ js "text/plain"; js "application/pdf"; js "application/msword";
    js "application/vnd.openxmlformats-officedocument.wordprocessingml.document" ].

(** [array.includes(x)] on strings *)
Definition includes (l : list jstring) (x : jstring) : bool :=
  existsb (jstring_eqb x) l.

(** [files0] is [e.target.files?.[0]]. *)
Definition handleFileSelect (files0 : option File) (s : State)
    : State * list effect :=
  match files0 with
  | Some file =>
      if N.ltb maxSize (size file) then
        (s, [ShowToast {| title := js "File too large";
                          description := js "Please select a file smaller than 5MB.";
                          toast_variant := Destructive |}])
      else if negb (includes allowedTypes (type file)) then
        (s, [ShowToast {| title := js "Unsupported file type";
                          description := js "Please select a TXT, PDF, DOC, or DOCX file.";
                          toast_variant := Destructive |}])
      else (setSelectedFile (Some file) s, [])
  | None => (s, [])
  end.

(** The body of the upload endpoint's reply, as the handler reads it:
    [data.flashcards_count] as the template prints it, [data.flashcards] and
    [data.error]. *)
Record UploadData := {
  flashcards_count : jstring;
  flashcards : list Generated.card;
  error : option jstring
}.

Inductive upload_outcome :=
| Failed                                   (* [fetch] or [response.json()] rejects *)
| Responded (ok : bool) (data : UploadData).

Section Upload.

(** [import.meta.env.VITE_API_BASE_URL] *)
Variable env : option jstring.

(** [handleFileUpload], up to the call of [fetch]. *)
Definition handleFileUpload (s : State) : State * list effect :=
  match selectedFile s with
  | None => (s, [])
  | Some file =>
      (setIsUploading true s,
       [ConsoleLog (js "Uploading to: " ++ Api.getApiUrl env (js "/upload"));
        Fetch (Api.getApiUrl env (js "/upload")) file])
  end.

(** [handleFileUpload], from the outcome of the request on; [file] is the
    [selectedFile] the handler was started with. *)
Definition handleFileUpload_settled (file : File) (outcome : upload_outcome)
    (s : State) : State * list effect :=
  match outcome with
  | Responded true data =>
      (setIsUploading false (setSelectedFile None s),
       [ShowToast {| title := js "Success!";
                     description :=
                       js "Generated " ++ flashcards_count data ++
                       js " flashcards from " ++ name file;
                     toast_variant := Default |};
        AddCardsFromDocument (flashcards data);
        ResetFileInput])
  | Responded false data =>
      (setIsUploading false s,
       [ShowToast {| title := js "Upload failed";
                     description :=
                       match error data with
                       | None | Some [] =>
                           js "An error occurred while processing your file."
                       | Some message => message
                       end;
                     toast_variant := Destructive |}])
  | Failed =>
      (setIsUploading false s,
       [ShowToast {| title := js "Upload failed";
                     description :=
                       js "Could not connect to the server. Make sure the backend is running.";
                     toast_variant := Destructive |}])
  end.

Definition clearFile (s : State) : State * list effect :=
  (setSelectedFile None s, [ResetFileInput]).

(** The events of the form.  [UploadSettled] stands for the continuation
    of any upload; the runs below let it happen at any time, which covers
    every order in which requests can complete. *)
Inductive event :=
| ChangeFront (value : jstring)
| ChangeBack (value : jstring)
| Submit
| FileSelect (files0 : option File)
| FileUploadClick
| UploadSettled (file : File) (outcome : upload_outcome)
| ClearFile.

Definition step (e : event) (s : State) : State * list effect :=
  match e with
  | ChangeFront v =>
      ({| front := v; back := back s; selectedFile := selectedFile s;
          isUploading := isUploading s |}, [])
  | ChangeBack v =>
      ({| front := front s; back := v; selectedFile := selectedFile s;
          isUploading := isUploading s |}, [])
  | Submit => handleSubmit s
  | FileSelect files0 => handleFileSelect files0 s
  | FileUploadClick => handleFileUpload s
  | UploadSettled file outcome => handleFileUpload_settled file outcome s
  | ClearFile => clearFile s
  end.

(** The state after a sequence of events and the effects performed, in
    order. *)
Fixpoint run (events : list event) (s : State) : State * list effect :=
  match events with
  | [] => (s, [])
  | e :: rest =>
      let (s1, effects1) := step e s in
      let (s2, effects2) := run rest s1 in
      (s2, effects1 ++ effects2)
  end.

End Upload.

End CreateCardForm.

(** ** components/Flashcard.tsx *)

Module Flashcard.

Record Props := { front : jstring; back : jstring }.

(** A mounted card: the props it was given and its state. *)
Record Instance := { props : Props; isFlipped : bool }.

Definition mount (p : Props) : Instance := {| props := p; isFlipped := false |}.

Definition handleFlip (c : Instance) : Instance :=
  {| props := props c; isFlipped := negb (isFlipped c) |}.

(** What the card renders: the text of its two faces and whether the card
    is turned ([rotate-y-180]). *)
Record View := { front_face : jstring; back_face : jstring; turned : bool }.

Definition render (c : Instance) : View :=
  {| front_face := front (props c); back_face := back (props c);
     turned := isFlipped c |}.

End Flashcard.

(** ** pages/Index.tsx *)

Module Index.

Record FlashcardData := { id : jstring; front : jstring; back : jstring }.

Inductive Mode := study | create.

Record State := { cards : list FlashcardData; mode : Mode }.

Definition initial : State :=
  {| cards :=
       [ {| id := js "1"; front := js "What is the capital of France?";
            back := js "Paris" |};
         {| id := js "2"; front := js "What does HTML stand for?";
            back := js "HyperText Markup Language" |} ];
     mode := study |}.

(** [now] is the value of [Date.now()]. *)
Definition addCard (now : Z) (front back : jstring) (s : State) : State :=
  let newCard := {| id := decimal now; front := front; back := back |} in
  {| cards := cards s ++ [newCard]; mode := study |}.

(** [array.map((x, index) => f x index)], the index counted from [i]. *)
Fixpoint mapi {A B : Type} (f : A -> nat -> B) (i : nat) (l : list A) : list B :=
  match l with
  | [] => []
  | x :: l' => f x i :: mapi f (S i) l'
  end.

(** [clock index] is the value of [Date.now()] in the call for [index]. *)
Definition addCardsFromDocument (clock : nat -> Z)
    (newCards : list Generated.card) (s : State) : State :=
  let cardsWithIds :=
    mapi (fun card index =>
            {| id := decimal (clock index) ++ js "-" ++ decimal (Z.of_nat index);
               front := Generated.front card;
               back := Generated.back card |}) 0 newCards in
  {| cards := cards s ++ cardsWithIds; mode := study |}.

Definition setMode (m : Mode) (s : State) : State :=
  {| cards := cards s; mode := m |}.

(** Everything that changes the state of the page. *)
Inductive event :=
| OnAddCard (now : Z) (front back : jstring)
| OnAddCardsFromDocument (clock : nat -> Z) (newCards : list Generated.card)
| ToggleMode              (* the button of the header *)
| BackToCreate            (* [onBackToCreate] of the study view *)
| StartStudying.

Definition step (e : event) (s : State) : State :=
  match e with
  | OnAddCard now f b => addCard now f b s
  | OnAddCardsFromDocument clock newCards => addCardsFromDocument clock newCards s
  | ToggleMode => setMode (match mode s with study => create | create => study end) s
  | BackToCreate => setMode create s
  | StartStudying => setMode study s
  end.

Definition run (events : list event) (s : State) : State :=
  fold_left (fun s e => step e s) events s.

End Index.

(** ** components/StudyMode.tsx *)

Module StudyMode.

(** JavaScript's [%] is the remainder of the truncated division: [Z.rem].
    The handlers exist only when [cards] is not empty: the component
    returns the empty view before it defines them. *)
Definition nextCard (cards : list Index.FlashcardData) (prev : Z) : Z :=
  Z.rem (prev + 1) (Z.of_nat (length cards)).

Definition prevCard (cards : list Index.FlashcardData) (prev : Z) : Z :=
  Z.rem (prev - 1 + Z.of_nat (length cards)) (Z.of_nat (length cards)).

Definition resetProgress (prev : Z) : Z := 0%Z.

End StudyMode.

(** ** The specification's reading of the extraction

    Two readings of "the bracketed substring starting at the first [ and
    ending at the earliest matching ]": up to the first closing bracket after
    the first opening one, and up to the closing bracket that balances it. *)

Fixpoint from_first (c : code_unit) (s : jstring) : option jstring :=
  match s with
  | [] => None
  | x :: s' => if N.eqb x c then Some s else from_first c s'
  end.

Fixpoint through_first (c : code_unit) (s : jstring) : option jstring :=
  match s with
  | [] => None
  | x :: s' =>
      if N.eqb x c then Some [x] else option_map (cons x) (through_first c s')
  end.

Fixpoint through_balancing (depth : nat) (s : jstring) : option jstring :=
  match s with
  | [] => None
  | x :: s' =>
      if N.eqb x rbracket then
        match depth with
        | O => Some [x]
        | S d => option_map (cons x) (through_balancing d s')
        end
      else if N.eqb x lbracket then
        option_map (cons x) (through_balancing (S depth) s')
      else option_map (cons x) (through_balancing depth s')
  end.

Definition spec_first_bracketed (reply : jstring) : option jstring :=
  match from_first lbracket reply with
  | Some (b :: rest) => option_map (cons b) (through_first rbracket rest)
  | _ => None
  end.

Definition spec_first_balanced (reply : jstring) : option jstring :=
  match from_first lbracket reply with
  | Some (b :: rest) => option_map (cons b) (through_balancing 0 rest)
  | _ => None
  end.

(** The model's reply, when the service gets one: the key is stored, the
    request is answered with a response that is ok and whose body holds a
    text. *)
Definition model_reply (fetch : ClaudeService.Request -> ClaudeService.fetch_outcome)
    (st : ClaudeService.storage) (content : jstring) : option jstring :=
  match ClaudeService.getApiKey st with
  | Some (c :: key) =>
      match fetch {| ClaudeService.url := ClaudeService.BASE_URL;
                     ClaudeService.x_api_key := c :: key;
                     ClaudeService.content := content |} with
      | ClaudeService.Resolved response =>
          if ClaudeService.ok response then
            match ClaudeService.content_text response with
            | Ok text => text
            | Throw _ => None
            end
          else None
      | ClaudeService.Rejected _ => None
      end
  | _ => None
  end.

(** A valid entry, in the specification's words: an object whose [front] and
    [back] are strings that are not empty after trimming. *)
Definition well_formed_card (card : json) : Prop :=
  exists members front back,
    card = JObject members /\
    lookup (js "front") members = Some (JString front) /\
    lookup (js "back") members = Some (JString back) /\
    trim front <> [] /\ trim back <> [].

(** A network that answers every request with the text [reply]. *)
Definition replying (reply : jstring)
    : ClaudeService.Request -> ClaudeService.fetch_outcome :=
  fun _ =>
    ClaudeService.Resolved
      {| ClaudeService.ok := true;
         ClaudeService.error_message := [];
         ClaudeService.content_text := Ok (Some reply) |}.

(** ** Sample replies *)

Definition sample_key : ClaudeService.storage := Some (js "sk-ant-sample").

Definition card_of (front back : string) : json :=
  JObject [(js "front", JString (js front)); (js "back", JString (js back))].

(** Five entries, two of which are valid. *)
Definition reply_mixed : jstring :=
  json_text "Here are your cards: [{'front':'Q1','back':'A1'}, {'front':' ','back':'A2'}, {'front':'Q3'}, 7, {'front':'Q4','back':'A4'}] Good luck!".

Definition reply_mixed_match : jstring :=
  json_text "[{'front':'Q1','back':'A1'}, {'front':' ','back':'A2'}, {'front':'Q3'}, 7, {'front':'Q4','back':'A4'}]".

Definition reply_mixed_array : list json :=
  [ card_of "Q1" "A1"; card_of " " "A2";
    JObject [(js "front", JString (js "Q3"))];
    JNumber (js "7"); card_of "Q4" "A4" ].

(** One entry, which is not valid: its front is blank. *)
Definition reply_blank : jstring := json_text "[{'front':' ','back':'A'}]".

(** A valid array followed by a remark with brackets of its own. *)
Definition reply_remark : jstring :=
  json_text "[{'front':'Q','back':'A'}] (see [1])".

Definition reply_remark_first : jstring := json_text "[{'front':'Q','back':'A'}]".

Definition reply_remark_match : jstring :=
  json_text "[{'front':'Q','back':'A'}] (see [1]".

(** A reply without any array. *)
Definition reply_prose : jstring := js "I could not read this document.".

(** ** Sample files and states *)

Definition notes_txt : File :=
  {| name := js "notes.txt"; size := 2048; type := js "text/plain" |}.

(** A text file of exactly 5MB. *)
Definition exactly_5MB_txt : File :=
  {| name := js "big.txt"; size := 5242880; type := js "text/plain" |}.

(** A text file of 5MB and one byte. *)
Definition over_5MB_txt : File :=
  {| name := js "bigger.txt"; size := 5242881; type := js "text/plain" |}.

Definition photo_png : File :=
  {| name := js "photo.png"; size := 1024; type := js "image/png" |}.

Definition upload_ready : FileUpload.State :=
  {| FileUpload.file := Some notes_txt;
     FileUpload.isProcessing := false;
     FileUpload.progress := 0;
     FileUpload.apiKey := js "sk-ant-sample" |}.

Definition reads_notes : File -> result jstring := fun _ => Ok (js "notes").

(** ** The validation of the form, as one predicate

    A file passes [handleFileSelect] when it is not larger than [maxSize] and
    its type is one of [allowedTypes]. *)
Definition passes_validation (file : File) : bool :=
  negb (N.ltb CreateCardForm.maxSize (size file)) &&
  CreateCardForm.includes CreateCardForm.allowedTypes (type file).

(** The invariant of the form: the selected file, if any, passed the
    validation. *)
Definition selection_valid (s : CreateCardForm.State) : Prop :=
  forall file, CreateCardForm.selectedFile s = Some file ->
               passes_validation file = true.

(** The texts of a card of the page, without its identifier. *)
Definition front_back (c : Index.FlashcardData) : jstring * jstring :=
  (Index.front c, Index.back c).

(** ** lib/api.ts: [api.endpoints] and [apiRequest] *)

Module ApiRequest.

(** [api.endpoints] *)
Definition endpoints_upload : jstring := js "/upload".
Definition endpoints_flashcards (processId : jstring) : jstring :=
  js "/flashcards/" ++ processId.
Definition endpoints_documents : jstring := js "/documents".
Definition endpoints_health : jstring := js "/health".

(** A headers object: its entries in order; as in every object, a later entry
    with the same name overrides an earlier one. *)
Definition headers := list (jstring * jstring).


(** The fields of [RequestInit] that the model keeps; [req_headers] is
    [options.headers], a plain object. *)
Record RequestInit := {
  method : option jstring;
  body : option jstring;
  req_headers : headers
}.

(** [{...options, headers: {'Content-Type': 'application/json',
    ...options.headers}}] *)
Definition with_default_headers (options : RequestInit) : RequestInit :=
  {| method := method options;
     body := body options;
     req_headers :=
       (js "Content-Type", js "application/json") :: req_headers options |}.

(** What [apiRequest] reads of a response: [response.ok], [response.status]
    and the outcome of [response.json()]. *)
Record Response := {
  ok : bool;
  status : Z;
  json_body : result json
}.

Inductive fetch_outcome :=
| Rejected (e : thrown)
| Resolved (response : Response).

Section Request.

(** [import.meta.env.VITE_API_BASE_URL] *)
Variable env : option jstring.
Variable fetch : jstring -> RequestInit -> fetch_outcome.
(** [String(v)] for a value that is not a string, and the message of the
    [TypeError] for reading a property of [null]; both belong to the
    platform. *)
Variable ToString : json -> jstring.
Variable null_property_message : jstring.

(** The message [new Error(v)] gets. *)
Definition message_of (v : json) : jstring :=
  match v with
  | JString s => s
  | other => ToString other
  end.

(** [throw new Error(errorData.error || `HTTP error! status: ...`)], with
    [errorData] the body of the response, or [{}] when it is not JSON. *)
Definition http_error (response : Response) : thrown :=
  let errorData :=
    match json_body response with
    | Ok data => data
    | Throw _ => JObject []
    end in
  match errorData with
  | JNull => Error null_property_message
  | _ =>
      match prop errorData (js "error") with
      | Some e =>
          if truthy e then Error (message_of e)
          else Error (js "HTTP error! status: " ++ decimal (status response))
      | None => Error (js "HTTP error! status: " ++ decimal (status response))
      end
  end.

(** The [catch] clause of [apiRequest]. *)
Definition rethrow {A : Type} (r : result A) : result A :=
  match r with
  | Throw NonError => Throw (Error (js "An unexpected error occurred"))
  | _ => r
  end.

Definition apiRequest (endpoint : jstring) (options : RequestInit) : result json :=
  let url := Api.getApiUrl env endpoint in
  rethrow
    match fetch url (with_default_headers options) with
    | Rejected e => Throw e
    | Resolved response =>
        if negb (ok response) then Throw (http_error response)
        else json_body response
    end.

End Request.

End ApiRequest.

(** ** pages/Index.tsx: the page with its two views

    The page renders the study view when [mode] is [study] and the form
    otherwise, so that the study view is unmounted, and its [currentIndex]
    lost, whenever the mode is [create]: a view that is mounted again starts
    from [useState(0)].  The handlers of the study view exist only when the
    view is shown with a card. *)

Module App.

Record State := { page : Index.State; currentIndex : Z }.

Definition initial : State := {| page := Index.initial; currentIndex := 0 |}.

Inductive event :=
| Page (e : Index.event)
| Next
| Prev
| Reset.

Definition navigable (p : Index.State) : bool :=
  match Index.mode p, Index.cards p with
  | Index.study, _ :: _ => true
  | _, _ => false
  end.

Definition step (e : event) (s : State) : State :=
  match e with
  | Page e' =>
      let page' := Index.step e' (page s) in
      {| page := page';
         currentIndex :=
           match Index.mode (page s), Index.mode page' with
           | Index.study, Index.study => currentIndex s
           | _, _ => 0
           end |}
  | Next =>
      if navigable (page s) then
        {| page := page s;
           currentIndex := StudyMode.nextCard (Index.cards (page s)) (currentIndex s) |}
      else s
  | Prev =>
      if navigable (page s) then
        {| page := page s;
           currentIndex := StudyMode.prevCard (Index.cards (page s)) (currentIndex s) |}
      else s
  | Reset =>
      if navigable (page s) then
        {| page := page s; currentIndex := StudyMode.resetProgress (currentIndex s) |}
      else s
  end.

Definition run (events : list event) (s : State) : State :=
  fold_left (fun s e => step e s) events s.

(** [cards[currentIndex]], the card the study view shows. *)
Definition currentCard (s : State) : option Index.FlashcardData :=
  if (currentIndex s <? 0)%Z then None
  else nth_error (Index.cards (page s)) (Z.to_nat (currentIndex s)).

(** The props the page gives the form:
    [onAddCard={addCard} onAddCardsFromDocument={addCardsFromDocument}];
    [now] and [clock] are the values of [Date.now()] during the call. *)
Definition deliver (now : Z) (clock : nat -> Z) (eff : CreateCardForm.effect)
    (p : Index.State) : Index.State :=
  match eff with
  | CreateCardForm.AddCard front back => Index.addCard now front back p
  | CreateCardForm.AddCardsFromDocument cards =>
      Index.addCardsFromDocument clock cards p
  | _ => p
  end.

Definition deliver_all (now : Z) (clock : nat -> Z)
    (effects : list CreateCardForm.effect) (p : Index.State) : Index.State :=
  fold_left (fun p eff => deliver now clock eff p) effects p.

End App.

(** ** Notions the properties use *)

(** A string with a character that is not white space. *)
Definition has_visible_char (s : jstring) : Prop :=
  exists c, In c s /\ is_space c = false.

(** A string that neither starts nor ends with white space. *)
Definition trimmed (s : jstring) : Prop :=
  (forall c rest, s = c :: rest -> is_space c = false) /\
  (forall c front, s = front ++ [c] -> is_space c = false).

(** The requests among the effects of the form. *)
Definition requests (effects : list CreateCardForm.effect)
    : list (jstring * File) :=
  flat_map (fun eff =>
              match eff with
              | CreateCardForm.Fetch url file => [(url, file)]
              | _ => []
              end) effects.

(** The toasts among the effects of a handler. *)
Definition form_toasts (effects : list CreateCardForm.effect) : list Toast :=
  flat_map (fun eff =>
              match eff with
              | CreateCardForm.ShowToast t => [t]
              | _ => []
              end) effects.

Definition upload_toasts (effects : list FileUpload.effect) : list Toast :=
  flat_map (fun eff =>
              match eff with
              | FileUpload.ShowToast t => [t]
              | _ => []
              end) effects.

(** The lists of cards a handler of [FileUpload] hands to [onCardsGenerated]. *)
Definition generated (effects : list FileUpload.effect) : list (list json) :=
  flat_map (fun eff =>
              match eff with
              | FileUpload.CardsGenerated cards => [cards]
              | _ => []
              end) effects.


(** The number of clicks on "Generate Flashcards" among the events. *)
Definition clicks (events : list CreateCardForm.event) : nat :=
  length (filter (fun e =>
                    match e with
                    | CreateCardForm.FileUploadClick => true
                    | _ => false
                    end) events).

(** A form with texts typed in both fields. *)
Definition typed_form : CreateCardForm.State :=
  {| CreateCardForm.front := js "  What is HTML? ";
     CreateCardForm.back := js "A markup language";
     CreateCardForm.selectedFile := None;
     CreateCardForm.isUploading := false |}.


(** A server that refuses every request with status 413 and the body
    [{"error": "File too large"}]. *)
Definition refusing : jstring -> ApiRequest.RequestInit -> ApiRequest.fetch_outcome :=
  fun _ _ =>
    ApiRequest.Resolved
      {| ApiRequest.ok := false;
         ApiRequest.status := 413;
         ApiRequest.json_body := JSON.parse (json_text "{'error': 'File too large'}") |}.

Definition no_options : ApiRequest.RequestInit :=
  {| ApiRequest.method := None; ApiRequest.body := None;
     ApiRequest.req_headers := [] |}.

(** A network that answers the requests made under the sample key with
    [reply_mixed] and fails for every other request. *)
Definition replying_to_sample_key
    : ClaudeService.Request -> ClaudeService.fetch_outcome :=
  fun request =>
    if jstring_eqb (ClaudeService.x_api_key request) (js "sk-ant-sample")
    then replying reply_mixed request
    else ClaudeService.Rejected NonError.

(** The upload form of [FileUpload] before a file is chosen. *)
Definition upload_empty : FileUpload.State :=
  {| FileUpload.file := None;
     FileUpload.isProcessing := false;
     FileUpload.progress := 0;
     FileUpload.apiKey := js "sk-ant-sample" |}.

(** The index of the study view points at a card of the list. *)
Definition index_valid (s : App.State) : Prop :=
  (0 <= App.currentIndex s < Z.of_nat (length (Index.cards (App.page s))))%Z.


(** * Properties *)

(** ** The regular expression *)

Lemma match_here_many (p : code_unit -> bool) (r : regex) (s : jstring) :
  match_here (Many p :: r) s =
  match s with
  | c :: s' =>
      if p c then
        match match_here (Many p :: r) s' with
        | Some n => Some (S n)
        | None => match_here r s
        end
      else match_here r s
  | [] => match_here r []
  end.
Proof. destruct s; reflexivity. Qed.

Lemma closing_tail_none (s : jstring) :
  ~ In rbracket s -> match_here closing_tail s = None.
Proof.
  unfold closing_tail.
  induction s as [|c s IH]; intros Hnot.
  - reflexivity.
  - rewrite match_here_many, orb_negb_r, IH by (intros H; apply Hnot; now right).
    cbn [match_here].
    destruct (N.eqb_spec rbracket c) as [E|_]; [|reflexivity].
    exfalso; apply Hnot; left; now symmetry.
Qed.

Lemma closing_tail_last (mid post : jstring) :
  ~ In rbracket post ->
  match_here closing_tail (mid ++ rbracket :: post) = Some (S (length mid)).
Proof.
  intros Hpost. unfold closing_tail.
  induction mid as [|c mid IH]; cbn [app length].
  - rewrite match_here_many, orb_negb_r.
    fold closing_tail. rewrite (closing_tail_none post Hpost).
    cbn [match_here]. now rewrite N.eqb_refl.
  - now rewrite match_here_many, orb_negb_r, IH.
Qed.

Lemma closing_tail_in (s : jstring) :
  In rbracket s -> match_here closing_tail s <> None.
Proof.
  unfold closing_tail.
  induction s as [|c s IH]; intros Hin; [destruct Hin|].
  rewrite match_here_many, orb_negb_r.
  destruct (match_here _ s) eqn:E; [discriminate|].
  destruct Hin as [->|Hin]; [|now apply IH in Hin].
  cbn [match_here]. now rewrite N.eqb_refl.
Qed.

Lemma closing_tail_some (s : jstring) (n : nat) :
  match_here closing_tail s = Some n ->
  exists mid post,
    s = mid ++ rbracket :: post /\ ~ In rbracket post /\ n = S (length mid).
Proof.
  revert n.
  induction s as [|c s IH]; intros n; unfold closing_tail.
  - discriminate.
  - rewrite match_here_many, orb_negb_r. fold closing_tail.
    destruct (match_here closing_tail s) as [m|] eqn:E.
    + intros [= <-]. destruct (IH m eq_refl) as (mid & post & -> & Hpost & ->).
      exists (c :: mid), post. repeat split; assumption.
    + cbn [match_here closing_tail].
      destruct (N.eqb_spec rbracket c) as [<-|_]; [|discriminate].
      intros [= <-]. exists [], s. repeat split.
      intros Hin. now apply closing_tail_in in Hin.
Qed.

Lemma json_array_pattern_here (s : jstring) :
  match_here json_array_pattern s =
  match s with
  | c :: s' =>
      if N.eqb lbracket c then option_map S (match_here closing_tail s') else None
  | [] => None
  end.
Proof. destruct s; reflexivity. Qed.

Lemma firstn_through (mid post : jstring) (c : code_unit) :
  firstn (S (length mid)) (mid ++ c :: post) = mid ++ [c].
Proof.
  induction mid as [|x mid IH]; [reflexivity|].
  cbn [length app]. rewrite firstn_cons. now rewrite IH.
Qed.

(** The match runs from the first opening bracket to the last closing one. *)
Lemma match_json_array_first_to_last (pre mid post : jstring) :
  ~ In lbracket pre -> ~ In rbracket post ->
  match_json_array (pre ++ lbracket :: mid ++ rbracket :: post) =
  Some (lbracket :: mid ++ [rbracket]).
Proof.
  intros Hpre Hpost. unfold match_json_array.
  induction pre as [|c pre IH]; cbn [app exec].
  - rewrite json_array_pattern_here, N.eqb_refl, closing_tail_last by assumption.
    cbn [option_map]. rewrite firstn_cons. now rewrite firstn_through.
  - rewrite json_array_pattern_here.
    destruct (N.eqb_spec lbracket c) as [E|_].
    + exfalso. apply Hpre. left. now symmetry.
    + apply IH. intros H. apply Hpre. now right.
Qed.

Lemma match_json_array_some (s m : jstring) :
  match_json_array s = Some m ->
  exists pre mid post,
    s = pre ++ lbracket :: mid ++ rbracket :: post /\
    ~ In lbracket pre /\ ~ In rbracket post /\
    m = lbracket :: mid ++ [rbracket].
Proof.
  unfold match_json_array. revert m.
  induction s as [|c s IH]; intros m; cbn [exec]; rewrite json_array_pattern_here.
  - discriminate.
  - destruct (N.eqb_spec lbracket c) as [<-|Hc].
    + destruct (match_here closing_tail s) as [n|] eqn:E; cbn [option_map].
      * intros [= <-].
        destruct (closing_tail_some _ _ E) as (mid & post & -> & Hpost & ->).
        exists [], mid, post. repeat split; try assumption; [intros []|].
        change (firstn (S (S (length mid))) (lbracket :: mid ++ rbracket :: post))
          with (lbracket :: firstn (S (length mid)) (mid ++ rbracket :: post)).
        now rewrite firstn_through.
      * intros H. destruct (IH _ H) as (pre & mid & post & -> & _).
        exfalso. apply (closing_tail_in (pre ++ lbracket :: mid ++ rbracket :: post)).
        -- rewrite in_app_iff. right. right. rewrite in_app_iff. right. now left.
        -- assumption.
    + intros H. destruct (IH _ H) as (pre & mid & post & -> & Hpre & Hpost & ->).
      exists (c :: pre), mid, post. repeat split; try assumption.
      intros [E|Hin]; [now apply Hc | now apply Hpre].
Qed.

(** There is no match exactly when no closing bracket follows an opening one. *)
Lemma match_json_array_none (s : jstring) :
  match_json_array s = None <->
  (forall pre rest, s = pre ++ lbracket :: rest -> ~ In rbracket rest).
Proof.
  split.
  - intros Hnone pre rest -> Hin.
    apply in_split in Hin. destruct Hin as (mid & post & ->).
    destruct (in_dec N.eq_dec lbracket pre) as [Hpre|Hpre].
    + (* the first opening bracket is earlier *)
      clear -Hnone Hpre. revert Hnone.
      assert (Hr : In rbracket (lbracket :: mid ++ rbracket :: post))
        by (right; rewrite in_app_iff; right; now left).
      revert Hr. generalize (lbracket :: mid ++ rbracket :: post). intros tl Hr.
      unfold match_json_array.
      induction pre as [|c pre IH]; [destruct Hpre|].
      cbn [app exec]. rewrite json_array_pattern_here.
      destruct (N.eqb_spec lbracket c) as [<-|Hc].
      * destruct (match_here closing_tail (pre ++ tl)) eqn:E; [discriminate|].
        exfalso. apply (closing_tail_in (pre ++ tl)); [|assumption].
        rewrite in_app_iff. now right.
      * destruct Hpre as [E|Hpre]; [now symmetry in E|]. now apply IH.
    + (* we cut at the last closing bracket *)
      clear -Hnone Hpre.
      assert (exists mid' post', mid ++ rbracket :: post = mid' ++ rbracket :: post'
                                 /\ ~ In rbracket post') as (mid' & post' & E & Hpost').
      { destruct (match_here closing_tail (mid ++ rbracket :: post)) as [n|] eqn:E.
        - destruct (closing_tail_some _ _ E) as (a & b & Eq & Hb & _). now exists a, b.
        - exfalso. apply (closing_tail_in (mid ++ rbracket :: post)); [|assumption].
          rewrite in_app_iff. right. now left. }
      rewrite E, match_json_array_first_to_last in Hnone by assumption.
      discriminate.
  - intros H. destruct (match_json_array s) as [m|] eqn:E; [|reflexivity].
    destruct (match_json_array_some _ _ E) as (pre & mid & post & -> & _).
    exfalso. apply (H pre (mid ++ rbracket :: post) eq_refl).
    rewrite in_app_iff. right. now left.
Qed.

(** ** The service *)

Section ServiceFacts.

Variable JSON_parse : jstring -> result json.
Variable fetch : ClaudeService.Request -> ClaudeService.fetch_outcome.

Lemma nonblank_true (s : jstring) : nonblank s = true <-> trim s <> [].
Proof. unfold nonblank. destruct (trim s); split; congruence. Qed.

Lemma isValidCard_iff (card : json) :
  ClaudeService.isValidCard card = true <-> well_formed_card card.
Proof.
  unfold ClaudeService.isValidCard, well_formed_card. split.
  - destruct card as [ |b|lexeme|str|elements|members];
      cbn [truthy typeof jstype_eqb prop];
      rewrite ?andb_false_r; cbn [andb]; try discriminate.
    destruct (lookup (js "front") members)
      as [[ |b|lexeme|front|elements|ms]|] eqn:Ef;
      cbn; try discriminate;
      destruct (lookup (js "back") members)
        as [[ |b|lexeme|back|elements|ms]|] eqn:Eb;
      cbn; try discriminate.
    rewrite andb_true_iff, !nonblank_true. intros [Hf Hb].
    exists members, front, back. repeat split; assumption.
  - intros (members & front & back & -> & Hf & Hb & Tf & Tb).
    cbn [truthy typeof prop andb jstype_eqb]. rewrite Hf, Hb.
    cbn [typeof jstype_eqb andb].
    apply andb_true_iff. now rewrite !nonblank_true.
Qed.

Lemma validateFlashcards_array (elements : list json) :
  ClaudeService.validateFlashcards (JArray elements) =
  match filter ClaudeService.isValidCard elements with
  | [] => Throw (Error (js "No valid flashcards found in response"))
  | valid => Ok valid
  end.
Proof.
  unfold ClaudeService.validateFlashcards.
  now destruct (filter ClaudeService.isValidCard elements).
Qed.

Lemma validateFlashcards_nonempty (flashcards : json) :
  ClaudeService.validateFlashcards flashcards <> Ok [].
Proof.
  destruct flashcards; try discriminate.
  rewrite validateFlashcards_array.
  now destruct (filter ClaudeService.isValidCard elements).
Qed.

Lemma rethrow_ok {A : Type} (r : result A) (a : A) :
  ClaudeService.rethrow r = Ok a -> r = Ok a.
Proof. destruct r as [|[|]]; cbn; congruence. Qed.

Lemma extractFlashcards_nonempty (content_text : jstring) :
  ClaudeService.extractFlashcards JSON_parse content_text <> Ok [].
Proof.
  unfold ClaudeService.extractFlashcards.
  destruct (match_json_array content_text) as [jsonMatch0|]; [|discriminate].
  destruct (JSON_parse jsonMatch0); cbn [bind]; [|discriminate].
  apply validateFlashcards_nonempty.
Qed.

(** The service never returns an empty array. *)
Lemma generateFlashcards_nonempty (st : ClaudeService.storage) (content : jstring) :
  ClaudeService.generateFlashcards JSON_parse fetch st content <> Ok [].
Proof.
  unfold ClaudeService.generateFlashcards.
  destruct (ClaudeService.getApiKey st) as [[|c key]|]; try discriminate.
  intros H. apply rethrow_ok in H. revert H.
  destruct (fetch _) as [e|response]; [discriminate|].
  destruct (ClaudeService.ok response); cbn [negb]; [|discriminate].
  destruct (ClaudeService.content_text response) as [[[|c' text]|]|e];
    cbn [bind]; try discriminate.
  apply extractFlashcards_nonempty.
Qed.

(** With a reply from the model, the service is the extraction from that
    reply under the [catch] clause. *)
Lemma generateFlashcards_on_reply (st : ClaudeService.storage)
    (content reply : jstring) :
  model_reply fetch st content = Some reply ->
  ClaudeService.generateFlashcards JSON_parse fetch st content =
  ClaudeService.rethrow
    match reply with
    | [] => Throw (Error (js "No response content received from Claude"))
    | _ :: _ => ClaudeService.extractFlashcards JSON_parse reply
    end.
Proof.
  unfold model_reply, ClaudeService.generateFlashcards.
  destruct (ClaudeService.getApiKey st) as [[|c key]|]; try discriminate.
  destruct (fetch _) as [e|response]; [discriminate|].
  destruct (ClaudeService.ok response); cbn [negb]; [|discriminate].
  destruct (ClaudeService.content_text response) as [text|e]; [|discriminate].
  intros ->. cbn [bind]. now destruct reply.
Qed.

(** C1 (as amended): when the array extracted from the model's reply holds
    N valid entries and N is at least 1, [generateFlashcards] returns exactly
    those N entries in their original order: the array without the entries
    that lack a non-empty string [front] or [back]. *)
Theorem generateFlashcards_returns_valid_cards (st : ClaudeService.storage)
    (content reply jsonMatch0 : jstring) (flashcards : list json) (N : nat) :
  model_reply fetch st content = Some reply ->
  match_json_array reply = Some jsonMatch0 ->
  JSON_parse jsonMatch0 = Ok (JArray flashcards) ->
  length (filter ClaudeService.isValidCard flashcards) = N ->
  1 <= N ->
  ClaudeService.generateFlashcards JSON_parse fetch st content =
    Ok (filter ClaudeService.isValidCard flashcards) /\
  (forall card,
     In card (filter ClaudeService.isValidCard flashcards) <->
     In card flashcards /\ well_formed_card card).
Proof.
  intros Hreply Hmatch Hparse Hlen HN. split.
  - rewrite (generateFlashcards_on_reply st content reply Hreply).
    destruct reply as [|c reply]; [discriminate|].
    unfold ClaudeService.extractFlashcards.
    rewrite Hmatch, Hparse. cbn [bind].
    rewrite validateFlashcards_array.
    destruct (filter ClaudeService.isValidCard flashcards); [|reflexivity].
    cbn in Hlen. lia.
  - intros card. rewrite filter_In, isValidCard_iff. reflexivity.
Qed.

(** C5: a reply with no valid entry makes [generateFlashcards] throw the
    error "No valid flashcards found in response"; whatever the inputs, it
    never returns an empty array. *)
Theorem generateFlashcards_no_valid_card_throws (st : ClaudeService.storage)
    (content : jstring) :
  ClaudeService.generateFlashcards JSON_parse fetch st content <> Ok [] /\
  (forall reply jsonMatch0 flashcards,
     model_reply fetch st content = Some reply ->
     match_json_array reply = Some jsonMatch0 ->
     JSON_parse jsonMatch0 = Ok (JArray flashcards) ->
     filter ClaudeService.isValidCard flashcards = [] ->
     ClaudeService.generateFlashcards JSON_parse fetch st content =
     Throw (Error (js "No valid flashcards found in response"))).
Proof.
  split; [apply generateFlashcards_nonempty|].
  intros reply jsonMatch0 flashcards Hreply Hmatch Hparse Hnone.
  rewrite (generateFlashcards_on_reply st content reply Hreply).
  destruct reply as [|c reply]; [discriminate|].
  unfold ClaudeService.extractFlashcards.
  rewrite Hmatch, Hparse. cbn [bind].
  now rewrite validateFlashcards_array, Hnone.
Qed.

(** C2 (as amended): the service extracts the substring of the reply that
    runs from the first opening bracket to the LAST closing bracket, and
    parses that substring as the flashcard array; when no closing bracket
    follows an opening one it throws without parsing anything. *)
Theorem generateFlashcards_parses_first_to_last (st : ClaudeService.storage)
    (content reply : jstring) :
  model_reply fetch st content = Some reply ->
  (match_json_array reply = None /\
   (forall pre rest, reply = pre ++ lbracket :: rest -> ~ In rbracket rest) /\
   ClaudeService.generateFlashcards JSON_parse fetch st content =
   Throw (Error match reply with
                | [] => js "No response content received from Claude"
                | _ :: _ => js "Could not find valid JSON in Claude response"
                end))
  \/
  (exists pre mid post,
     reply = pre ++ lbracket :: mid ++ rbracket :: post /\
     ~ In lbracket pre /\ ~ In rbracket post /\
     match_json_array reply = Some (lbracket :: mid ++ [rbracket]) /\
     ClaudeService.generateFlashcards JSON_parse fetch st content =
     ClaudeService.rethrow
       (flashcards <- JSON_parse (lbracket :: mid ++ [rbracket]) ;;
        ClaudeService.validateFlashcards flashcards)).
Proof.
  intros Hreply.
  rewrite (generateFlashcards_on_reply st content reply Hreply).
  destruct (match_json_array reply) as [jsonMatch0|] eqn:E.
  - right.
    destruct (match_json_array_some _ _ E) as (pre & mid & post & Hr & Hpre & Hpost & ->).
    exists pre, mid, post. repeat split; try assumption.
    destruct reply as [|c reply]; [discriminate|].
    unfold ClaudeService.extractFlashcards. now rewrite E.
  - left. repeat split.
    + now apply match_json_array_none.
    + destruct reply as [|c reply]; [reflexivity|].
      unfold ClaudeService.extractFlashcards. now rewrite E.
Qed.

End ServiceFacts.

Lemma generateFlashcards_returns_valid_cards_witness :
  model_reply (replying reply_mixed) sample_key (js "notes") = Some reply_mixed /\
  match_json_array reply_mixed = Some reply_mixed_match /\
  JSON.parse reply_mixed_match = Ok (JArray reply_mixed_array) /\
  length (filter ClaudeService.isValidCard reply_mixed_array) = 2 /\
  1 <= 2 /\
  ClaudeService.generateFlashcards JSON.parse (replying reply_mixed) sample_key
    (js "notes") = Ok [card_of "Q1" "A1"; card_of "Q4" "A4"].
Proof.
  assert (H1 : model_reply (replying reply_mixed) sample_key (js "notes")
               = Some reply_mixed) by reflexivity.
  assert (H2 : match_json_array reply_mixed = Some reply_mixed_match)
    by (vm_compute; reflexivity).
  assert (H3 : JSON.parse reply_mixed_match = Ok (JArray reply_mixed_array))
    by (vm_compute; reflexivity).
  assert (H4 : length (filter ClaudeService.isValidCard reply_mixed_array) = 2)
    by (vm_compute; reflexivity).
  assert (H5 : 1 <= 2) by lia.
  refine (conj H1 (conj H2 (conj H3 (conj H4 (conj H5 _))))).
  exact (proj1 (generateFlashcards_returns_valid_cards JSON.parse
                  (replying reply_mixed) sample_key (js "notes") reply_mixed
                  reply_mixed_match reply_mixed_array 2 H1 H2 H3 H4 H5)).
Defined.

(** C1, as stated, fails when N is 0: the reply [reply_blank] holds an array
    whose only entry is not valid, and [generateFlashcards] throws instead of
    returning the empty list of valid entries. *)
Lemma generateFlashcards_returns_valid_cards_counterexample :
  model_reply (replying reply_blank) sample_key (js "notes") = Some reply_blank /\
  match_json_array reply_blank = Some reply_blank /\
  JSON.parse reply_blank = Ok (JArray [card_of " " "A"]) /\
  length (filter ClaudeService.isValidCard [card_of " " "A"]) = 0 /\
  ClaudeService.generateFlashcards JSON.parse (replying reply_blank) sample_key
    (js "notes") <> Ok (filter ClaudeService.isValidCard [card_of " " "A"]).
Proof.
  split; [reflexivity|].
  split; [vm_compute; reflexivity|].
  split; [vm_compute; reflexivity|].
  split; [vm_compute; reflexivity|].
  vm_compute. discriminate.
Qed.

Lemma generateFlashcards_no_valid_card_throws_witness :
  model_reply (replying reply_blank) sample_key (js "notes") = Some reply_blank /\
  match_json_array reply_blank = Some reply_blank /\
  JSON.parse reply_blank = Ok (JArray [card_of " " "A"]) /\
  filter ClaudeService.isValidCard [card_of " " "A"] = [] /\
  ClaudeService.generateFlashcards JSON.parse (replying reply_blank) sample_key
    (js "notes") = Throw (Error (js "No valid flashcards found in response")).
Proof.
  assert (H1 : model_reply (replying reply_blank) sample_key (js "notes")
               = Some reply_blank) by reflexivity.
  assert (H2 : match_json_array reply_blank = Some reply_blank)
    by (vm_compute; reflexivity).
  assert (H3 : JSON.parse reply_blank = Ok (JArray [card_of " " "A"]))
    by (vm_compute; reflexivity).
  assert (H4 : filter ClaudeService.isValidCard [card_of " " "A"] = [])
    by (vm_compute; reflexivity).
  refine (conj H1 (conj H2 (conj H3 (conj H4 _)))).
  exact (proj2 (generateFlashcards_no_valid_card_throws JSON.parse
                  (replying reply_blank) sample_key (js "notes"))
               reply_blank reply_blank [card_of " " "A"] H1 H2 H3 H4).
Defined.

Lemma generateFlashcards_parses_first_to_last_witness :
  model_reply (replying reply_remark) sample_key (js "notes") = Some reply_remark /\
  exists pre mid post,
    reply_remark = pre ++ lbracket :: mid ++ rbracket :: post /\
    ~ In lbracket pre /\ ~ In rbracket post /\
    match_json_array reply_remark = Some (lbracket :: mid ++ [rbracket]) /\
    ClaudeService.generateFlashcards JSON.parse (replying reply_remark)
      sample_key (js "notes") =
    ClaudeService.rethrow
      (flashcards <- JSON.parse (lbracket :: mid ++ [rbracket]) ;;
       ClaudeService.validateFlashcards flashcards).
Proof.
  assert (H1 : model_reply (replying reply_remark) sample_key (js "notes")
               = Some reply_remark) by reflexivity.
  refine (conj H1 _).
  destruct (generateFlashcards_parses_first_to_last JSON.parse
              (replying reply_remark) sample_key (js "notes") reply_remark H1)
    as [(Hnone & _)|Hsome].
  - vm_compute in Hnone. discriminate Hnone.
  - exact Hsome.
Defined.

(** C2, as stated, fails on [reply_remark]: the substring from the first
    opening bracket to the first closing bracket after it, which is also the
    one up to the balancing bracket, is the array with its one card; the
    service takes the text up to the last closing bracket of the reply, which
    is not JSON, and throws. *)
Lemma generateFlashcards_parses_first_to_last_counterexample :
  spec_first_bracketed reply_remark = Some reply_remark_first /\
  spec_first_balanced reply_remark = Some reply_remark_first /\
  match_json_array reply_remark = Some reply_remark_match /\
  reply_remark_match <> reply_remark_first /\
  (flashcards <- JSON.parse reply_remark_first ;;
   ClaudeService.validateFlashcards flashcards) = Ok [card_of "Q" "A"] /\
  (exists message,
     ClaudeService.generateFlashcards JSON.parse (replying reply_remark)
       sample_key (js "notes") = Throw (Error message)).
Proof.
  split; [vm_compute; reflexivity|].
  split; [vm_compute; reflexivity|].
  split; [vm_compute; reflexivity|].
  split; [vm_compute; discriminate|].
  split; [vm_compute; reflexivity|].
  eexists. vm_compute. reflexivity.
Qed.

(** ** The upload of a document to the model (FileUpload) *)

Section UploadFacts.

Variable JSON_parse : jstring -> result json.
Variable fetch : ClaudeService.Request -> ClaudeService.fetch_outcome.
Variable readFileContent : File -> result jstring.

(** The run showed one toast only, and its title is another one. *)
Ltac other_toast := intros [[= <-]|[]]; vm_compute; discriminate.

(** The branch of [handleUpload] that shows "No cards generated" is never
    taken: the service throws where it would have returned no card. *)
Lemma handleUpload_never_no_cards_generated (st : ClaudeService.storage)
    (s : FileUpload.State) (t : Toast) :
  In (FileUpload.ShowToast t)
     (snd (FileUpload.handleUpload JSON_parse fetch readFileContent st s)) ->
  title t <> js "No cards generated".
Proof.
  unfold FileUpload.handleUpload.
  destruct (FileUpload.file s) as [f|]; [|other_toast].
  destruct (nonblank (FileUpload.apiKey s)); cbn [negb]; [|other_toast].
  destruct (readFileContent f) as [fileContent|e]; cbn [bind]; [|other_toast].
  destruct (ClaudeService.generateFlashcards _ _ _ _) as [cards|e] eqn:E;
    [|other_toast].
  destruct cards as [|card cards].
  - now apply generateFlashcards_nonempty in E.
  - cbn [length Nat.ltb Nat.leb snd].
    intros [H|[[= <-]|[H|[]]]]; try discriminate H.
    vm_compute. discriminate.
Qed.

End UploadFacts.

(** C6: when the model's reply holds no valid card ([reply_blank]) or no array
    at all ([reply_prose]), [handleUpload] shows the toast "Processing failed"
    with the message of the error the service threw, and not the toast
    "No cards generated". *)
Theorem handleUpload_empty_result_shows_processing_failed :
  FileUpload.handleUpload JSON.parse (replying reply_blank) reads_notes None
    upload_ready =
  (sample_key,
   {| FileUpload.file := Some notes_txt; FileUpload.isProcessing := false;
      FileUpload.progress := 100; FileUpload.apiKey := js "sk-ant-sample" |},
   [FileUpload.ShowToast
      {| title := js "Processing failed";
         description := js "No valid flashcards found in response";
         toast_variant := Destructive |}]) /\
  FileUpload.handleUpload JSON.parse (replying reply_prose) reads_notes None
    upload_ready =
  (sample_key,
   {| FileUpload.file := Some notes_txt; FileUpload.isProcessing := false;
      FileUpload.progress := 100; FileUpload.apiKey := js "sk-ant-sample" |},
   [FileUpload.ShowToast
      {| title := js "Processing failed";
         description := js "Could not find valid JSON in Claude response";
         toast_variant := Destructive |}]).
Proof. split; vm_compute; reflexivity. Qed.

(** ** Card navigation (StudyMode) *)

Lemma nextCard_mod (cards : list Index.FlashcardData) (i : Z) :
  (0 <= i < Z.of_nat (length cards))%Z ->
  StudyMode.nextCard cards i = ((i + 1) mod Z.of_nat (length cards))%Z.
Proof.
  intros Hi. unfold StudyMode.nextCard.
  apply Z.rem_mod_nonneg; lia.
Qed.

Lemma prevCard_mod (cards : list Index.FlashcardData) (i : Z) :
  (0 <= i < Z.of_nat (length cards))%Z ->
  StudyMode.prevCard cards i =
  ((i - 1 + Z.of_nat (length cards)) mod Z.of_nat (length cards))%Z.
Proof.
  intros Hi. unfold StudyMode.prevCard.
  apply Z.rem_mod_nonneg; lia.
Qed.

(** C3: on a list of [len] cards that is not empty and from an index [i]
    with [0 <= i < len], [nextCard] gives [(i + 1) mod len], which is 0 from
    the last card, and [prevCard] gives [(i - 1 + len) mod len], which is
    [len - 1] from the first card. *)
Theorem nextCard_prevCard_wrap (cards : list Index.FlashcardData) (len i : Z) :
  cards <> [] ->
  len = Z.of_nat (length cards) ->
  (0 <= i < len)%Z ->
  StudyMode.nextCard cards i = ((i + 1) mod len)%Z /\
  StudyMode.prevCard cards i = ((i - 1 + len) mod len)%Z /\
  (i = len - 1 -> StudyMode.nextCard cards i = 0)%Z /\
  (i = 0 -> StudyMode.prevCard cards i = len - 1)%Z.
Proof.
  intros _ -> Hi. rewrite nextCard_mod, prevCard_mod by assumption.
  repeat split.
  - intros ->. rewrite Z.sub_add. apply Z.mod_same. lia.
  - intros ->. rewrite Z.add_comm, Z.add_opp_r.
    apply Z.mod_small. lia.
Qed.

Lemma nextCard_prevCard_wrap_witness :
  Index.cards Index.initial <> [] /\
  (0 <= 1 < Z.of_nat (length (Index.cards Index.initial)))%Z /\
  StudyMode.nextCard (Index.cards Index.initial) 1 = 0%Z /\
  StudyMode.prevCard (Index.cards Index.initial) 1 = 0%Z.
Proof.
  assert (H1 : Index.cards Index.initial <> []) by discriminate.
  assert (H2 : (0 <= 1 < Z.of_nat (length (Index.cards Index.initial)))%Z)
    by (cbn; lia).
  refine (conj H1 (conj H2 _)).
  destruct (nextCard_prevCard_wrap (Index.cards Index.initial) 2 1 H1 eq_refl H2)
    as (Hnext & Hprev & _).
  split; [exact Hnext | exact Hprev].
Defined.

(** ** Flipping a card (Flashcard) *)

(** C7: flipping a card negates [isFlipped] and nothing else: the props, and
    so the two texts the card shows, are the same after the flip, and
    flipping twice gives back the card as it was. *)
Theorem handleFlip_toggles_display_only (c : Flashcard.Instance) :
  Flashcard.isFlipped (Flashcard.handleFlip c) = negb (Flashcard.isFlipped c) /\
  Flashcard.props (Flashcard.handleFlip c) = Flashcard.props c /\
  Flashcard.front_face (Flashcard.render (Flashcard.handleFlip c)) =
    Flashcard.front (Flashcard.props c) /\
  Flashcard.back_face (Flashcard.render (Flashcard.handleFlip c)) =
    Flashcard.back (Flashcard.props c) /\
  Flashcard.handleFlip (Flashcard.handleFlip c) = c.
Proof.
  destruct c as [p flipped]. repeat split.
  unfold Flashcard.handleFlip. cbn. now rewrite negb_involutive.
Qed.

(** ** The list of cards (Index) *)

Lemma mapi_length {A B : Type} (f : A -> nat -> B) (i : nat) (l : list A) :
  length (Index.mapi f i l) = length l.
Proof.
  revert i. induction l as [|x l IH]; intros i; cbn; [reflexivity|].
  now rewrite IH.
Qed.

Lemma mapi_map {A B C : Type} (f : A -> nat -> B) (g : B -> C) (h : A -> C)
    (i : nat) (l : list A) :
  (forall x n, g (f x n) = h x) ->
  map g (Index.mapi f i l) = map h l.
Proof.
  intros Hgf. revert i.
  induction l as [|x l IH]; intros i; cbn; [reflexivity|].
  now rewrite Hgf, IH.
Qed.

(** C8: [addCard] puts one card with the given front and back after the
    cards of the list, [addCardsFromDocument] puts the given cards after
    them, in their order; both leave the cards that were there as they were
    and set the mode to [study]. *)
Theorem addCard_addCardsFromDocument_append (s : Index.State) (now : Z)
    (front back : jstring) (clock : nat -> Z) (newCards : list Generated.card) :
  (exists id,
     Index.cards (Index.addCard now front back s) =
     Index.cards s ++ [ {| Index.id := id; Index.front := front;
                           Index.back := back |} ]) /\
  Index.mode (Index.addCard now front back s) = Index.study /\
  (exists added,
     Index.cards (Index.addCardsFromDocument clock newCards s) =
     Index.cards s ++ added /\
     length added = length newCards /\
     map front_back added =
     map (fun c => (Generated.front c, Generated.back c)) newCards) /\
  Index.mode (Index.addCardsFromDocument clock newCards s) = Index.study.
Proof.
  repeat split.
  - now exists (decimal now).
  - eexists. split; [reflexivity|]. split.
    + apply mapi_length.
    + now apply mapi_map.
Qed.

Lemma step_appends (e : Index.event) (s : Index.State) :
  exists added, Index.cards (Index.step e s) = Index.cards s ++ added.
Proof.
  destruct e; cbn; try (exists []; now rewrite app_nil_r); eexists; reflexivity.
Qed.

Lemma run_appends (events : list Index.event) (s : Index.State) :
  exists added, Index.cards (Index.run events s) = Index.cards s ++ added.
Proof.
  unfold Index.run. revert s.
  induction events as [|e events IH]; intros s; cbn [fold_left].
  - exists []. now rewrite app_nil_r.
  - destruct (IH (Index.step e s)) as (added2 & ->).
    destruct (step_appends e s) as (added1 & ->).
    exists (added1 ++ added2). now rewrite app_assoc.
Qed.

(** C10: the list of cards only grows at its end.  After any sequence of
    events of the page, [addCard] and [addCardsFromDocument] among them, the
    list is the former list followed by the added cards: no card is removed
    or changed, each one keeps its position, and the length does not
    decrease. *)
Theorem cards_append_only (events : list Index.event) (s : Index.State) :
  (exists added, Index.cards (Index.run events s) = Index.cards s ++ added) /\
  length (Index.cards s) <= length (Index.cards (Index.run events s)) /\
  (forall i card,
     nth_error (Index.cards s) i = Some card ->
     nth_error (Index.cards (Index.run events s)) i = Some card).
Proof.
  destruct (run_appends events s) as (added & E).
  split; [now exists added|]. rewrite E. split.
  - rewrite length_app. lia.
  - intros i card H. rewrite nth_error_app1; [assumption|].
    apply nth_error_Some. congruence.
Qed.

(** ** The selection and the upload of a file (CreateCardForm) *)

Lemma jstring_eqb_eq (a b : jstring) : jstring_eqb a b = true <-> a = b.
Proof.
  revert b. induction a as [|x a IH]; intros [|y b]; cbn;
    try (split; [discriminate | discriminate]); [tauto|].
  rewrite andb_true_iff, N.eqb_eq, IH. split.
  - now intros [-> ->].
  - now intros [= -> ->].
Qed.

Lemma includes_In (l : list jstring) (x : jstring) :
  CreateCardForm.includes l x = true <-> In x l.
Proof.
  unfold CreateCardForm.includes. rewrite existsb_exists. split.
  - intros (y & Hy & E). apply jstring_eqb_eq in E. now subst.
  - intros H. exists x. split; [assumption | now apply jstring_eqb_eq].
Qed.

Lemma passes_validation_iff (file : File) :
  passes_validation file = true <->
  (size file <= CreateCardForm.maxSize)%N /\
  In (type file) CreateCardForm.allowedTypes.
Proof.
  unfold passes_validation.
  rewrite andb_true_iff, negb_true_iff, N.ltb_ge, includes_In. reflexivity.
Qed.

(** A file that does not pass the validation leaves the form as it was. *)
Lemma handleFileSelect_rejects (file : File) (s : CreateCardForm.State) :
  passes_validation file = false ->
  fst (CreateCardForm.handleFileSelect (Some file) s) = s /\
  forall eff, In eff (snd (CreateCardForm.handleFileSelect (Some file) s)) ->
              exists t, eff = CreateCardForm.ShowToast t.
Proof.
  unfold passes_validation, CreateCardForm.handleFileSelect.
  destruct (N.ltb CreateCardForm.maxSize (size file)); cbn [negb andb fst snd].
  - intros _. split; [reflexivity|]. intros eff [<-|[]]. now eexists.
  - intros ->. cbn [negb fst snd]. split; [reflexivity|].
    intros eff [<-|[]]. now eexists.
Qed.

Lemma handleFileSelect_accepts (file : File) (s : CreateCardForm.State) :
  passes_validation file = true ->
  CreateCardForm.handleFileSelect (Some file) s =
  (CreateCardForm.setSelectedFile (Some file) s, []).
Proof.
  unfold passes_validation, CreateCardForm.handleFileSelect.
  destruct (N.ltb CreateCardForm.maxSize (size file)); cbn [negb andb].
  - discriminate.
  - now intros ->.
Qed.

Section FormFacts.

Variable env : option jstring.

Lemma step_selection_valid (e : CreateCardForm.event) (s : CreateCardForm.State) :
  selection_valid s -> selection_valid (fst (CreateCardForm.step env e s)).
Proof.
  unfold selection_valid. intros Hs.
  destruct e as [v|v| |files0| |file outcome| ]; cbn [CreateCardForm.step].
  - exact Hs.
  - exact Hs.
  - unfold CreateCardForm.handleSubmit.
    destruct (nonblank _ && nonblank _); exact Hs.
  - destruct files0 as [file|]; [|exact Hs].
    destruct (passes_validation file) eqn:E.
    + rewrite (handleFileSelect_accepts file s E). cbn. now intros g [= <-].
    + now rewrite (proj1 (handleFileSelect_rejects file s E)).
  - unfold CreateCardForm.handleFileUpload.
    destruct (CreateCardForm.selectedFile s) as [f|] eqn:E; cbn;
      intros g Hg; apply Hs; congruence.
  - destruct outcome as [|[|] data]; cbn; try exact Hs. discriminate.
  - cbn. discriminate.
Qed.

Lemma step_fetch_valid (e : CreateCardForm.event) (s : CreateCardForm.State)
    (url : jstring) (file : File) :
  selection_valid s ->
  In (CreateCardForm.Fetch url file) (snd (CreateCardForm.step env e s)) ->
  passes_validation file = true.
Proof.
  unfold selection_valid. intros Hs.
  destruct e as [v|v| |files0| |f outcome| ]; cbn [CreateCardForm.step].
  - intros [].
  - intros [].
  - unfold CreateCardForm.handleSubmit.
    destruct (nonblank _ && nonblank _); cbn; [|intros []].
    intros [H|[]]. discriminate H.
  - destruct files0 as [g|]; [|intros []].
    destruct (passes_validation g) eqn:E.
    + rewrite (handleFileSelect_accepts g s E). intros [].
    + intros H. apply (proj2 (handleFileSelect_rejects g s E)) in H.
      destruct H as (t & H). discriminate H.
  - unfold CreateCardForm.handleFileUpload.
    destruct (CreateCardForm.selectedFile s) as [g|] eqn:E; [|intros []].
    cbn. intros [H|[[= _ <-]|[]]]; [discriminate H|]. now apply Hs.
  - destruct outcome as [|[|] data]; cbn.
    + intros [H|[]]; discriminate H.
    + intros [H|[H|[H|[]]]]; discriminate H.
    + intros [H|[]]; discriminate H.
  - cbn. intros [H|[]]. discriminate H.
Qed.

(** Every request of a run of the form carries a file that passed the
    validation. *)
Lemma run_fetch_valid (events : list CreateCardForm.event)
    (s : CreateCardForm.State) (url : jstring) (file : File) :
  selection_valid s ->
  In (CreateCardForm.Fetch url file) (snd (CreateCardForm.run env events s)) ->
  passes_validation file = true.
Proof.
  revert s. induction events as [|e events IH]; intros s Hs; cbn.
  - intros [].
  - pose proof (step_selection_valid e s Hs) as Hs1.
    pose proof (step_fetch_valid e s url file Hs) as Hstep.
    destruct (CreateCardForm.step env e s) as [s1 effects1].
    specialize (IH s1 Hs1).
    destruct (CreateCardForm.run env events s1) as [s2 effects2].
    cbn in *. rewrite in_app_iff. intros [H|H]; auto.
Qed.

Lemma initial_selection_valid : selection_valid CreateCardForm.initial.
Proof. intros file. discriminate. Qed.

End FormFacts.

(** C4: a file of more than 5*1024*1024 bytes, or whose type is not one of
    the four accepted ones, is rejected when it is selected: [handleFileSelect]
    leaves the state as it was, so that [selectedFile] stays null; and no run
    of the form ever sends a request to the upload endpoint for it. *)
Theorem rejected_file_never_uploaded (env : option jstring) (file : File) :
  (5 * 1024 * 1024 < size file)%N \/
  ~ In (type file)
       [ js "text/plain"; js "application/pdf"; js "application/msword";
         js "application/vnd.openxmlformats-officedocument.wordprocessingml.document" ] ->
  (forall s, fst (CreateCardForm.handleFileSelect (Some file) s) = s) /\
  (forall s,
     CreateCardForm.selectedFile s = None ->
     CreateCardForm.selectedFile
       (fst (CreateCardForm.handleFileSelect (Some file) s)) = None) /\
  (forall events url,
     ~ In (CreateCardForm.Fetch url file)
          (snd (CreateCardForm.run env events CreateCardForm.initial))).
Proof.
  intros Hbad.
  assert (E : passes_validation file = false).
  { destruct (passes_validation file) eqn:E; [|reflexivity].
    apply passes_validation_iff in E. destruct E as [Hsize Htype].
    destruct Hbad as [Hbig|Hnot]; [|now elim Hnot].
    unfold CreateCardForm.maxSize in Hsize. lia. }
  repeat split.
  - intros s. apply (handleFileSelect_rejects file s E).
  - intros s Hnone. now rewrite (proj1 (handleFileSelect_rejects file s E)).
  - intros events url Hin.
    apply run_fetch_valid in Hin; [congruence | apply initial_selection_valid].
Qed.

Lemma rejected_file_never_uploaded_witness :
  ((5 * 1024 * 1024 < size photo_png)%N \/
   ~ In (type photo_png)
        [ js "text/plain"; js "application/pdf"; js "application/msword";
          js "application/vnd.openxmlformats-officedocument.wordprocessingml.document" ]) /\
  CreateCardForm.selectedFile
    (fst (CreateCardForm.handleFileSelect (Some photo_png) CreateCardForm.initial))
  = None /\
  ~ In (CreateCardForm.Fetch (js "http://localhost:5001/upload") photo_png)
       (snd (CreateCardForm.run None
               [ CreateCardForm.FileSelect (Some photo_png);
                 CreateCardForm.FileUploadClick ]
               CreateCardForm.initial)).
Proof.
  assert (H : (5 * 1024 * 1024 < size photo_png)%N \/
              ~ In (type photo_png)
                   [ js "text/plain"; js "application/pdf"; js "application/msword";
                     js "application/vnd.openxmlformats-officedocument.wordprocessingml.document" ]).
  { right. intros Hin. apply includes_In in Hin. vm_compute in Hin. discriminate Hin. }
  refine (conj H _).
  destruct (rejected_file_never_uploaded None photo_png H) as (_ & Hnull & Hnever).
  split.
  - apply Hnull. reflexivity.
  - apply Hnever.
Defined.

(** C9: a file of exactly 5*1024*1024 bytes whose type is accepted is
    selected, without any toast; the toast "File too large" is shown exactly
    for the files of more than 5*1024*1024 bytes. *)
Theorem file_of_exactly_5MB_accepted (file : File) (s : CreateCardForm.State) :
  size file = (5 * 1024 * 1024)%N ->
  In (type file)
     [ js "text/plain"; js "application/pdf"; js "application/msword";
       js "application/vnd.openxmlformats-officedocument.wordprocessingml.document" ] ->
  CreateCardForm.handleFileSelect (Some file) s =
    (CreateCardForm.setSelectedFile (Some file) s, []) /\
  (forall other s',
     (exists t,
        In (CreateCardForm.ShowToast t)
           (snd (CreateCardForm.handleFileSelect (Some other) s')) /\
        title t = js "File too large") <->
     (5 * 1024 * 1024 < size other)%N).
Proof.
  intros Hsize Htype. split.
  - apply handleFileSelect_accepts. apply passes_validation_iff.
    split; [|exact Htype]. rewrite Hsize. unfold CreateCardForm.maxSize. lia.
  - intros other s'. unfold CreateCardForm.handleFileSelect.
    change (5 * 1024 * 1024)%N with CreateCardForm.maxSize.
    destruct (N.ltb_spec CreateCardForm.maxSize (size other)) as [Hbig|Hsmall].
    + split; [intros _; exact Hbig|]. intros _. eexists. split; [now left|reflexivity].
    + split; [|lia]. intros (t & Hin & Ht). exfalso.
      destruct (negb _); cbn in Hin; [|destruct Hin].
      destruct Hin as [[= <-]|[]]. vm_compute in Ht. discriminate Ht.
Qed.

Lemma file_of_exactly_5MB_accepted_witness :
  size exactly_5MB_txt = (5 * 1024 * 1024)%N /\
  In (type exactly_5MB_txt)
     [ js "text/plain"; js "application/pdf"; js "application/msword";
       js "application/vnd.openxmlformats-officedocument.wordprocessingml.document" ] /\
  CreateCardForm.selectedFile
    (fst (CreateCardForm.handleFileSelect (Some exactly_5MB_txt)
            CreateCardForm.initial)) = Some exactly_5MB_txt.
Proof.
  assert (H1 : size exactly_5MB_txt = (5 * 1024 * 1024)%N) by reflexivity.
  assert (H2 : In (type exactly_5MB_txt)
                  [ js "text/plain"; js "application/pdf"; js "application/msword";
                    js "application/vnd.openxmlformats-officedocument.wordprocessingml.document" ])
    by (left; reflexivity).
  refine (conj H1 (conj H2 _)).
  now rewrite (proj1 (file_of_exactly_5MB_accepted exactly_5MB_txt
                        CreateCardForm.initial H1 H2)).
Defined.

Lemma cards_append_only_witness :
  nth_error (Index.cards Index.initial) 1 =
    Some {| Index.id := js "2"; Index.front := js "What does HTML stand for?";
            Index.back := js "HyperText Markup Language" |} /\
  nth_error
    (Index.cards
       (Index.run
          [ Index.OnAddCard 1700000000000 (js "Q") (js "A");
            Index.ToggleMode;
            Index.OnAddCardsFromDocument (fun _ => 1700000000500%Z)
              [ {| Generated.front := js "Q2"; Generated.back := js "A2" |} ] ]
          Index.initial)) 1 =
    Some {| Index.id := js "2"; Index.front := js "What does HTML stand for?";
            Index.back := js "HyperText Markup Language" |}.
Proof.
  assert (H : nth_error (Index.cards Index.initial) 1 =
              Some {| Index.id := js "2";
                      Index.front := js "What does HTML stand for?";
                      Index.back := js "HyperText Markup Language" |})
    by reflexivity.
  refine (conj H _).
  exact (proj2 (proj2 (cards_append_only _ Index.initial)) 1 _ H).
Defined.

(** * Further properties *)

(** ** Trimming *)

Lemma trimStart_head (s : jstring) (c : code_unit) (rest : jstring) :
  trimStart s = c :: rest -> is_space c = false.
Proof.
  induction s as [|x s IH]; cbn; [discriminate|].
  destruct (is_space x) eqn:E; [assumption|]. now intros [= <- _].
Qed.

Lemma trimStart_suffix (s : jstring) : exists pre, s = pre ++ trimStart s.
Proof.
  induction s as [|x s [pre IH]]; cbn.
  - now exists [].
  - destruct (is_space x).
    + exists (x :: pre). cbn. now rewrite <- IH.
    + now exists [].
Qed.

Lemma trimStart_nil_iff (s : jstring) :
  trimStart s = [] <-> (forall c, In c s -> is_space c = true).
Proof.
  induction s as [|x s IH]; cbn.
  - split; [intros _ c [] | reflexivity].
  - destruct (is_space x) eqn:E.
    + rewrite IH. split.
      * intros H c [<-|Hc]; auto.
      * intros H c Hc. apply H. now right.
    + split; [discriminate|]. intros H.
      specialize (H x (or_introl eq_refl)). congruence.
Qed.

Lemma trimStart_fixed (s : jstring) :
  (forall c rest, s = c :: rest -> is_space c = false) -> trimStart s = s.
Proof.
  destruct s as [|x s]; [reflexivity|]. intros H. cbn.
  now rewrite (H x s eq_refl).
Qed.

Lemma trim_nil_iff (s : jstring) :
  trim s = [] <-> (forall c, In c s -> is_space c = true).
Proof.
  unfold trim, trimEnd. rewrite <- trimStart_nil_iff. split.
  - intros H. apply (f_equal (@rev _)) in H. rewrite rev_involutive in H.
    cbn in H. rewrite trimStart_nil_iff in H.
    destruct (trimStart s) as [|c rest] eqn:E; [reflexivity|].
    pose proof (trimStart_head s c rest E) as Hc.
    rewrite (H c) in Hc; [discriminate|].
    rewrite <- in_rev. now left.
  - now intros ->.
Qed.

Lemma nonblank_iff (s : jstring) : nonblank s = true <-> has_visible_char s.
Proof.
  rewrite nonblank_true. unfold has_visible_char. split.
  - intros H. destruct (existsb (fun c => negb (is_space c)) s) eqn:E.
    + apply existsb_exists in E. destruct E as (c & Hc & Hs).
      exists c. split; [assumption|]. now apply negb_true_iff.
    + exfalso. apply H, trim_nil_iff. intros c Hc.
      rewrite <- (negb_involutive (is_space c)).
      rewrite <- negb_false_iff, negb_involutive.
      destruct (is_space c) eqn:Es; [reflexivity|].
      assert (existsb (fun c => negb (is_space c)) s = true)
        by (apply existsb_exists; exists c; now rewrite Es).
      congruence.
  - intros (c & Hc & Hs) H. rewrite trim_nil_iff in H.
    rewrite (H c Hc) in Hs. discriminate.
Qed.

Lemma trim_trimmed (s : jstring) : trimmed (trim s).
Proof.
  unfold trim, trimEnd.
  destruct (trimStart_suffix (rev (trimStart s))) as [pre Hpre].
  set (u := trimStart (rev (trimStart s))) in *.
  assert (Ht : trimStart s = rev u ++ rev pre).
  { rewrite <- rev_app_distr, <- Hpre. now rewrite rev_involutive. }
  split.
  - intros c rest Hu.
    rewrite Hu in Ht. cbn in Ht. exact (trimStart_head s _ _ Ht).
  - intros c front Hu.
    apply (f_equal (@rev _)) in Hu.
    rewrite rev_involutive, rev_app_distr in Hu. cbn in Hu.
    exact (trimStart_head _ _ _ Hu).
Qed.

Lemma trimmed_fixed (s : jstring) : trimmed s -> trim s = s.
Proof.
  intros [Hhead Hlast]. unfold trim, trimEnd.
  rewrite (trimStart_fixed s Hhead).
  rewrite trimStart_fixed; [apply rev_involutive|].
  intros c rest Hrev. apply (Hlast c (rev rest)).
  rewrite <- (rev_involutive s), Hrev. reflexivity.
Qed.

(** ** The manual entry of a card (CreateCardForm.handleSubmit) *)

(** X1: [handleSubmit] hands a card to the page exactly when both fields hold
    a character that is not white space; the texts it hands over are the
    fields without their leading and trailing white space, none of them
    empty; both fields are emptied and the selected file is kept.  Otherwise
    it does nothing. *)
Theorem handleSubmit_adds_trimmed_card (s : CreateCardForm.State) :
  (has_visible_char (CreateCardForm.front s) /\
   has_visible_char (CreateCardForm.back s) ->
   CreateCardForm.handleSubmit s =
     ({| CreateCardForm.front := []; CreateCardForm.back := [];
         CreateCardForm.selectedFile := CreateCardForm.selectedFile s;
         CreateCardForm.isUploading := CreateCardForm.isUploading s |},
      [CreateCardForm.AddCard (trim (CreateCardForm.front s))
                              (trim (CreateCardForm.back s))]) /\
   trimmed (trim (CreateCardForm.front s)) /\
   trimmed (trim (CreateCardForm.back s)) /\
   trim (CreateCardForm.front s) <> [] /\
   trim (CreateCardForm.back s) <> []) /\
  (~ (has_visible_char (CreateCardForm.front s) /\
      has_visible_char (CreateCardForm.back s)) ->
   CreateCardForm.handleSubmit s = (s, [])).
Proof.
  unfold CreateCardForm.handleSubmit. split.
  - intros [Hf Hb].
    pose proof (proj2 (nonblank_iff _) Hf) as Ef.
    pose proof (proj2 (nonblank_iff _) Hb) as Eb.
    rewrite Ef, Eb. cbn [andb].
    repeat split; try apply trim_trimmed; now apply nonblank_true.
  - intros Hnot.
    destruct (nonblank (CreateCardForm.front s)) eqn:Ef;
      destruct (nonblank (CreateCardForm.back s)) eqn:Eb;
      cbn [andb]; try reflexivity.
    exfalso. apply Hnot. split; now apply nonblank_iff.
Qed.

Lemma handleSubmit_adds_trimmed_card_witness :
  (has_visible_char (CreateCardForm.front typed_form) /\
   has_visible_char (CreateCardForm.back typed_form)) /\
  snd (CreateCardForm.handleSubmit typed_form) =
  [CreateCardForm.AddCard (js "What is HTML?") (js "A markup language")].
Proof.
  assert (H : has_visible_char (CreateCardForm.front typed_form) /\
              has_visible_char (CreateCardForm.back typed_form)).
  { split; apply nonblank_iff; vm_compute; reflexivity. }
  refine (conj H _).
  destruct (proj1 (handleSubmit_adds_trimmed_card typed_form) H) as [E _].
  rewrite E. vm_compute. reflexivity.
Defined.

(** ** From the form to the page *)

Lemma deliver_all_app (now : Z) (clock : nat -> Z)
    (a b : list CreateCardForm.effect) (p : Index.State) :
  App.deliver_all now clock (a ++ b) p =
  App.deliver_all now clock b (App.deliver_all now clock a p).
Proof. unfold App.deliver_all. apply fold_left_app. Qed.

(** X2: a submitted card reaches the page: when both fields hold a visible
    character, the effects of [handleSubmit], given to the handlers the page
    passed to the form, put one card with the trimmed texts at the end of the
    list and switch the page to the study view. *)
Theorem submitted_card_reaches_page (s : CreateCardForm.State)
    (p : Index.State) (now : Z) (clock : nat -> Z) :
  has_visible_char (CreateCardForm.front s) ->
  has_visible_char (CreateCardForm.back s) ->
  App.deliver_all now clock (snd (CreateCardForm.handleSubmit s)) p =
  {| Index.cards :=
       Index.cards p ++
       [ {| Index.id := decimal now;
            Index.front := trim (CreateCardForm.front s);
            Index.back := trim (CreateCardForm.back s) |} ];
     Index.mode := Index.study |}.
Proof.
  intros Hf Hb. unfold CreateCardForm.handleSubmit.
  rewrite (proj2 (nonblank_iff _) Hf), (proj2 (nonblank_iff _) Hb).
  reflexivity.
Qed.

Lemma submitted_card_reaches_page_witness :
  has_visible_char (CreateCardForm.front typed_form) /\
  has_visible_char (CreateCardForm.back typed_form) /\
  map front_back
    (Index.cards
       (App.deliver_all 1700000000000 (fun _ => 0%Z)
          (snd (CreateCardForm.handleSubmit typed_form)) Index.initial)) =
  [ (js "What is the capital of France?", js "Paris");
    (js "What does HTML stand for?", js "HyperText Markup Language");
    (js "What is HTML?", js "A markup language") ].
Proof.
  assert (H1 : has_visible_char (CreateCardForm.front typed_form))
    by (apply nonblank_iff; vm_compute; reflexivity).
  assert (H2 : has_visible_char (CreateCardForm.back typed_form))
    by (apply nonblank_iff; vm_compute; reflexivity).
  refine (conj H1 (conj H2 _)).
  rewrite (submitted_card_reaches_page typed_form Index.initial
             1700000000000 (fun _ => 0%Z) H1 H2).
  vm_compute. reflexivity.
Defined.


(** ** Selecting, uploading and retrying (CreateCardForm) *)

Section FormRuns.

Variable env : option jstring.

Lemma handleFileUpload_requests (s : CreateCardForm.State) :
  requests (snd (CreateCardForm.handleFileUpload env s)) =
  match CreateCardForm.selectedFile s with
  | Some file => [(Api.getApiUrl env (js "/upload"), file)]
  | None => []
  end.
Proof.
  unfold CreateCardForm.handleFileUpload.
  now destruct (CreateCardForm.selectedFile s).
Qed.


Lemma rejected_toast_count (file : File) (s : CreateCardForm.State) :
  passes_validation file = false ->
  length (form_toasts (snd (CreateCardForm.handleFileSelect (Some file) s))) = 1.
Proof.
  unfold passes_validation, CreateCardForm.handleFileSelect.
  destruct (N.ltb CreateCardForm.maxSize (size file)); cbn [negb andb].
  - reflexivity.
  - now intros ->.
Qed.

(** X5: a file that fails the validation does not replace the file selected
    before it: after a valid file and then an invalid one were selected, the
    valid one is still selected and it is the one a click uploads. *)
Theorem rejected_selection_keeps_earlier_file (good bad : File)
    (s : CreateCardForm.State) :
  passes_validation good = true ->
  passes_validation bad = false ->
  let s1 := fst (CreateCardForm.handleFileSelect (Some good) s) in
  let s2 := fst (CreateCardForm.handleFileSelect (Some bad) s1) in
  CreateCardForm.selectedFile s2 = Some good /\
  requests (snd (CreateCardForm.handleFileUpload env s2)) =
  [(Api.getApiUrl env (js "/upload"), good)] /\
  length (form_toasts (snd (CreateCardForm.handleFileSelect (Some bad) s1))) = 1.
Proof.
  intros Hgood Hbad. cbn zeta.
  rewrite (handleFileSelect_accepts good s Hgood). cbn [fst].
  rewrite (proj1 (handleFileSelect_rejects bad _ Hbad)).
  rewrite handleFileUpload_requests, rejected_toast_count by assumption.
  repeat split.
Qed.

Lemma step_requests (e : CreateCardForm.event) (s : CreateCardForm.State) :
  requests (snd (CreateCardForm.step env e s)) =
  match e, CreateCardForm.selectedFile s with
  | CreateCardForm.FileUploadClick, Some file =>
      [(Api.getApiUrl env (js "/upload"), file)]
  | _, _ => []
  end.
Proof.
  destruct e as [v|v| |files0| |file outcome| ]; cbn [CreateCardForm.step].
  - now destruct (CreateCardForm.selectedFile s).
  - now destruct (CreateCardForm.selectedFile s).
  - unfold CreateCardForm.handleSubmit.
    destruct (nonblank _ && nonblank _);
      now destruct (CreateCardForm.selectedFile s).
  - assert (H : requests (snd (CreateCardForm.handleFileSelect files0 s)) = []).
    { unfold CreateCardForm.handleFileSelect.
      destruct files0 as [file|]; [|reflexivity].
      destruct (N.ltb _ _); [reflexivity|]. now destruct (negb _). }
    rewrite H. now destruct (CreateCardForm.selectedFile s).
  - apply handleFileUpload_requests.
  - destruct outcome as [|[|] data];
      now destruct (CreateCardForm.selectedFile s).
  - now destruct (CreateCardForm.selectedFile s).
Qed.

Lemma requests_app (a b : list CreateCardForm.effect) :
  requests (a ++ b) = requests a ++ requests b.
Proof. unfold requests. apply flat_map_app. Qed.

(** X6: whatever the events, the form sends at most one request for each
    click on "Generate Flashcards", every request goes to the upload endpoint
    of the configured base address, and the file it carries passed the
    validation when the run started from a form whose selection did. *)
Theorem run_requests_bounded (events : list CreateCardForm.event)
    (s : CreateCardForm.State) :
  length (requests (snd (CreateCardForm.run env events s))) <= clicks events /\
  (forall url file,
     In (url, file) (requests (snd (CreateCardForm.run env events s))) ->
     url = Api.API_BASE_URL env ++ js "/upload") /\
  (selection_valid s ->
   forall url file,
     In (url, file) (requests (snd (CreateCardForm.run env events s))) ->
     (size file <= 5 * 1024 * 1024)%N /\
     In (type file) CreateCardForm.allowedTypes).
Proof.
  split; [|split].
  - revert s. induction events as [|e events IH]; intros s; cbn; [lia|].
    pose proof (step_requests e s) as Hstep.
    destruct (CreateCardForm.step env e s) as [s1 effects1].
    specialize (IH s1).
    destruct (CreateCardForm.run env events s1) as [s2 effects2].
    cbn [snd] in *. rewrite requests_app, length_app, Hstep.
    unfold clicks in *.
    destruct e; cbn [filter length]; try lia.
    destruct (CreateCardForm.selectedFile s); cbn [length]; lia.
  - revert s. induction events as [|e events IH]; intros s url file; cbn;
      [intros []|].
    pose proof (step_requests e s) as Hstep.
    destruct (CreateCardForm.step env e s) as [s1 effects1].
    specialize (IH s1 url file).
    destruct (CreateCardForm.run env events s1) as [s2 effects2].
    cbn [snd] in *. rewrite requests_app, in_app_iff, Hstep.
    intros [H|H]; [|now apply IH].
    destruct e; try destruct H.
    destruct (CreateCardForm.selectedFile s); [|destruct H].
    destruct H as [[= <- _]|[]]. reflexivity.
  - intros Hs url file Hin. apply passes_validation_iff.
    apply (run_fetch_valid env events s url file Hs).
    clear Hs. revert s Hin.
    induction events as [|e events IH]; intros s; cbn; [intros []|].
    destruct (CreateCardForm.step env e s) as [s1 effects1].
    specialize (IH s1).
    destruct (CreateCardForm.run env events s1) as [s2 effects2].
    cbn [snd] in *. rewrite requests_app, !in_app_iff.
    intros [H|H]; [left|right; now apply IH].
    clear -H. induction effects1 as [|eff effects1 IHe]; [destruct H|].
    cbn in H. destruct eff; cbn in H; try (right; now apply IHe).
    destruct H as [[= <- <-]|H]; [now left | right; now apply IHe].
Qed.

End FormRuns.


Lemma rejected_selection_keeps_earlier_file_witness :
  passes_validation notes_txt = true /\
  passes_validation photo_png = false /\
  CreateCardForm.selectedFile
    (fst (CreateCardForm.handleFileSelect (Some photo_png)
            (fst (CreateCardForm.handleFileSelect (Some notes_txt)
                    CreateCardForm.initial)))) = Some notes_txt.
Proof.
  assert (H1 : passes_validation notes_txt = true) by (vm_compute; reflexivity).
  assert (H2 : passes_validation photo_png = false) by (vm_compute; reflexivity).
  refine (conj H1 (conj H2 _)).
  exact (proj1 (rejected_selection_keeps_earlier_file None notes_txt photo_png
                  CreateCardForm.initial H1 H2)).
Defined.

Lemma run_requests_bounded_witness :
  selection_valid CreateCardForm.initial /\
  In (js "http://localhost:5001/upload", notes_txt)
     (requests
        (snd (CreateCardForm.run None
                [ CreateCardForm.FileSelect (Some notes_txt);
                  CreateCardForm.FileUploadClick;
                  CreateCardForm.UploadSettled notes_txt CreateCardForm.Failed;
                  CreateCardForm.FileUploadClick ]
                CreateCardForm.initial))) /\
  (size notes_txt <= 5 * 1024 * 1024)%N /\
  In (type notes_txt) CreateCardForm.allowedTypes.
Proof.
  assert (H1 : selection_valid CreateCardForm.initial)
    by exact initial_selection_valid.
  assert (H2 : In (js "http://localhost:5001/upload", notes_txt)
                 (requests
                    (snd (CreateCardForm.run None
                       [ CreateCardForm.FileSelect (Some notes_txt);
                         CreateCardForm.FileUploadClick;
                         CreateCardForm.UploadSettled notes_txt CreateCardForm.Failed;
                         CreateCardForm.FileUploadClick ]
                       CreateCardForm.initial))))
    by (vm_compute; left; reflexivity).
  refine (conj H1 (conj H2 _)).
  exact (proj2 (proj2 (run_requests_bounded None _ CreateCardForm.initial))
               H1 _ _ H2).
Defined.

(** ** Addresses and requests of the API (lib/api.ts) *)

Lemma API_BASE_URL_not_empty (env : option jstring) : Api.API_BASE_URL env <> [].
Proof. destruct env as [[|c base]|]; discriminate. Qed.

(** X7: [getApiUrl] joins the base address and the endpoint with exactly one
    slash of its own making: an endpoint gives the same address with or
    without its leading slash, the address is the base followed by a slash,
    and the base is never empty, an unset or empty setting giving the local
    default.  The four endpoints of [api.endpoints] are used as they are. *)
Theorem getApiUrl_one_leading_slash (env : option jstring) (endpoint : jstring) :
  Api.getApiUrl env (47%N :: endpoint) = Api.API_BASE_URL env ++ 47%N :: endpoint /\
  ((forall rest, endpoint <> 47%N :: rest) ->
   Api.getApiUrl env endpoint = Api.getApiUrl env (47%N :: endpoint)) /\
  (exists rest, Api.getApiUrl env endpoint = Api.API_BASE_URL env ++ 47%N :: rest) /\
  Api.API_BASE_URL env <> [] /\
  (env = None \/ env = Some [] -> Api.API_BASE_URL env = js "http://localhost:5001") /\
  (forall processId e,
     In e [ ApiRequest.endpoints_upload; ApiRequest.endpoints_documents;
            ApiRequest.endpoints_health;
            ApiRequest.endpoints_flashcards processId ] ->
     Api.getApiUrl env e = Api.API_BASE_URL env ++ e).
Proof.
  repeat split.
  - intros Hno. destruct endpoint as [|c rest]; [reflexivity|].
    unfold Api.getApiUrl.
    destruct (N.eqb_spec c 47) as [->|_]; [|reflexivity].
    now elim (Hno rest).
  - unfold Api.getApiUrl. destruct endpoint as [|c rest]; [now exists []|].
    destruct (N.eqb_spec c 47) as [->|_]; eexists; reflexivity.
  - apply API_BASE_URL_not_empty.
  - now intros [->| ->].
  - intros processId e [<-|[<-|[<-|[<-|[]]]]]; reflexivity.
Qed.

Lemma getApiUrl_one_leading_slash_witness :
  (forall rest, js "health" <> 47%N :: rest) /\
  Api.getApiUrl (Some (js "https://cards.example")) (js "health") =
  js "https://cards.example/health".
Proof.
  assert (H : forall rest, js "health" <> 47%N :: rest) by (intros rest; discriminate).
  refine (conj H _).
  rewrite (proj1 (proj2 (getApiUrl_one_leading_slash
                           (Some (js "https://cards.example")) (js "health"))) H).
  vm_compute. reflexivity.
Defined.

Section ApiRequestFacts.

Variable env : option jstring.
Variable fetch : jstring -> ApiRequest.RequestInit -> ApiRequest.fetch_outcome.
Variable ToString : json -> jstring.
Variable null_property_message : jstring.

Lemma api_rethrow_ok {A : Type} (r : result A) (a : A) :
  ApiRequest.rethrow r = Ok a <-> r = Ok a.
Proof. destruct r as [|[|]]; cbn; split; congruence. Qed.

(** X8: [apiRequest] returns a value exactly when the request is answered by
    a response that is ok and whose body is JSON, and the value is that body;
    everything it throws is an [Error].  For a response that is not ok, the
    message is the [error] text of the body when the body is an object with
    such a text, not empty, and the status line when the body is not JSON or
    is an object without an [error]. *)
Theorem apiRequest_outcomes (endpoint : jstring) (options : ApiRequest.RequestInit) :
  let r := ApiRequest.apiRequest env fetch ToString null_property_message
             endpoint options in
  r <> Throw NonError /\
  (forall v,
     r = Ok v <->
     exists response,
       fetch (Api.getApiUrl env endpoint)
             (ApiRequest.with_default_headers options) =
       ApiRequest.Resolved response /\
       ApiRequest.ok response = true /\
       ApiRequest.json_body response = Ok v) /\
  (forall response,
     fetch (Api.getApiUrl env endpoint)
           (ApiRequest.with_default_headers options) =
     ApiRequest.Resolved response ->
     ApiRequest.ok response = false ->
     (forall members c message,
        ApiRequest.json_body response = Ok (JObject members) ->
        lookup (js "error") members = Some (JString (c :: message)) ->
        r = Throw (Error (c :: message))) /\
     ((exists e, ApiRequest.json_body response = Throw e) \/
      (exists members,
         ApiRequest.json_body response = Ok (JObject members) /\
         lookup (js "error") members = None) ->
      r = Throw (Error (js "HTTP error! status: " ++
                        decimal (ApiRequest.status response))))).
Proof.
  cbn zeta. unfold ApiRequest.apiRequest.
  split; [|split; [intros v; split|intros response Hfetch Hok; split]].
  - destruct (fetch _ _) as [[m|]|response]; cbn; try discriminate.
    destruct (ApiRequest.ok response); cbn [negb].
    + destruct (ApiRequest.json_body response) as [v|[m|]]; discriminate.
    + unfold ApiRequest.http_error.
      destruct (ApiRequest.json_body response) as [[ |b|l|str|els|ms]|e];
        cbn; try discriminate.
      destruct (lookup (js "error") ms) as [e|]; [|discriminate].
      destruct (truthy e); discriminate.
  - intros H. apply (proj1 (api_rethrow_ok _ _)) in H. revert H.
    destruct (fetch _ _) as [e|response]; [discriminate|].
    intros H. exists response. revert H.
    destruct (ApiRequest.ok response); [|discriminate].
    now repeat split.
  - intros (response & -> & -> & E). cbn [negb]. rewrite E. reflexivity.
  - intros members c message Hbody Herr. rewrite Hfetch, Hok. cbn [negb].
    unfold ApiRequest.http_error. rewrite Hbody. cbn [prop]. rewrite Herr.
    reflexivity.
  - intros Hbody. rewrite Hfetch, Hok. cbn [negb]. unfold ApiRequest.http_error.
    destruct Hbody as [[e ->]|(members & -> & Herr)].
    + reflexivity.
    + cbn [prop]. now rewrite Herr.
Qed.


End ApiRequestFacts.

Lemma apiRequest_outcomes_witness :
  refusing (Api.getApiUrl None ApiRequest.endpoints_upload)
           (ApiRequest.with_default_headers no_options) =
  ApiRequest.Resolved
    {| ApiRequest.ok := false; ApiRequest.status := 413;
       ApiRequest.json_body :=
         Ok (JObject [(js "error", JString (js "File too large"))]) |} /\
  ApiRequest.apiRequest None refusing (fun _ => []) []
    ApiRequest.endpoints_upload no_options =
  Throw (Error (js "File too large")).
Proof.
  assert (H : refusing (Api.getApiUrl None ApiRequest.endpoints_upload)
                       (ApiRequest.with_default_headers no_options) =
              ApiRequest.Resolved
                {| ApiRequest.ok := false; ApiRequest.status := 413;
                   ApiRequest.json_body :=
                     Ok (JObject [(js "error", JString (js "File too large"))]) |})
    by (vm_compute; reflexivity).
  refine (conj H _).
  destruct (apiRequest_outcomes None refusing (fun _ => []) []
              ApiRequest.endpoints_upload no_options) as (_ & _ & Hnot).
  destruct (Hnot _ H eq_refl) as [Hmsg _].
  exact (Hmsg [(js "error", JString (js "File too large"))] _ _
              eq_refl eq_refl).
Defined.


(** ** What the service returns and throws (ClaudeService) *)

Section ServiceOutcomes.

Variable JSON_parse : jstring -> result json.
Variable fetch : ClaudeService.Request -> ClaudeService.fetch_outcome.

Lemma validateFlashcards_ok (flashcards : json) (cards : list json) :
  ClaudeService.validateFlashcards flashcards = Ok cards ->
  exists elements,
    flashcards = JArray elements /\
    cards = filter ClaudeService.isValidCard elements /\ cards <> [].
Proof.
  destruct flashcards as [ |b|l|str|elements|ms]; try discriminate.
  rewrite validateFlashcards_array.
  destruct (filter ClaudeService.isValidCard elements) as [|c rest] eqn:E;
    [discriminate|].
  intros [= <-]. exists elements. repeat split; [now symmetry | discriminate].
Qed.

Lemma generateFlashcards_ok_inv (st : ClaudeService.storage)
    (content : jstring) (cards : list json) :
  ClaudeService.generateFlashcards JSON_parse fetch st content = Ok cards ->
  exists reply jsonMatch0 elements,
    model_reply fetch st content = Some reply /\
    match_json_array reply = Some jsonMatch0 /\
    JSON_parse jsonMatch0 = Ok (JArray elements) /\
    cards = filter ClaudeService.isValidCard elements /\ cards <> [].
Proof.
  unfold ClaudeService.generateFlashcards, model_reply.
  destruct (ClaudeService.getApiKey st) as [[|c key]|]; try discriminate.
  intros H. apply rethrow_ok in H. revert H.
  destruct (fetch _) as [e|response]; [discriminate|].
  destruct (ClaudeService.ok response); cbn [negb]; [|discriminate].
  destruct (ClaudeService.content_text response) as [[[|c' text]|]|e];
    cbn [bind]; try discriminate.
  unfold ClaudeService.extractFlashcards.
  destruct (match_json_array (c' :: text)) as [jsonMatch0|] eqn:Em;
    [|discriminate].
  destruct (JSON_parse jsonMatch0) as [v|e] eqn:Ep; cbn [bind]; [|discriminate].
  intros H. apply validateFlashcards_ok in H.
  destruct H as (elements & -> & Hc & Hne).
  exists (c' :: text), jsonMatch0, elements. repeat split; assumption.
Qed.

Lemma generateFlashcards_never_nonerror (st : ClaudeService.storage)
    (content : jstring) :
  ClaudeService.generateFlashcards JSON_parse fetch st content <> Throw NonError.
Proof.
  unfold ClaudeService.generateFlashcards.
  destruct (ClaudeService.getApiKey st) as [[|c key]|]; try discriminate.
  match goal with
  | |- ClaudeService.rethrow ?r <> _ => destruct r as [cards|[m|]]
  end; discriminate.
Qed.

Lemma generateFlashcards_ok_well_formed (st : ClaudeService.storage)
    (content : jstring) (cards : list json) :
  ClaudeService.generateFlashcards JSON_parse fetch st content = Ok cards ->
  Forall well_formed_card cards.
Proof.
  intros H.
  destruct (generateFlashcards_ok_inv st content cards H)
    as (reply & jsonMatch0 & elements & _ & _ & _ & -> & _).
  apply Forall_forall. intros card Hin.
  apply filter_In in Hin. now apply isValidCard_iff.
Qed.

(** X10: whatever the stored key, the network and the parser, a list of
    cards that [generateFlashcards] returns comes from a reply of the model
    in which the pattern found a text that parsed as an array; the list is
    that array without its invalid entries, it is not empty, and each of its
    cards is an object with a [front] and a [back] that are strings with a
    visible character.  What the service throws is always an [Error]. *)
Theorem generateFlashcards_outcomes (st : ClaudeService.storage)
    (content : jstring) :
  ClaudeService.generateFlashcards JSON_parse fetch st content <> Throw NonError /\
  (forall cards,
     ClaudeService.generateFlashcards JSON_parse fetch st content = Ok cards ->
     (exists reply jsonMatch0 elements,
        model_reply fetch st content = Some reply /\
        match_json_array reply = Some jsonMatch0 /\
        JSON_parse jsonMatch0 = Ok (JArray elements) /\
        cards = filter ClaudeService.isValidCard elements) /\
     cards <> [] /\
     Forall well_formed_card cards).
Proof.
  split; [apply generateFlashcards_never_nonerror|].
  intros cards H.
  destruct (generateFlashcards_ok_inv st content cards H)
    as (reply & jsonMatch0 & elements & Hr & Hm & Hp & Hc & Hne).
  split; [now exists reply, jsonMatch0, elements|]. split; [assumption|].
  now apply (generateFlashcards_ok_well_formed st content).
Qed.

End ServiceOutcomes.

Lemma generateFlashcards_outcomes_witness :
  ClaudeService.generateFlashcards JSON.parse (replying reply_mixed) sample_key
    (js "notes") = Ok [card_of "Q1" "A1"; card_of "Q4" "A4"] /\
  Forall well_formed_card [card_of "Q1" "A1"; card_of "Q4" "A4"].
Proof.
  assert (H : ClaudeService.generateFlashcards JSON.parse (replying reply_mixed)
                sample_key (js "notes") = Ok [card_of "Q1" "A1"; card_of "Q4" "A4"])
    by (vm_compute; reflexivity).
  refine (conj H _).
  exact (proj2 (proj2 (proj2 (generateFlashcards_outcomes JSON.parse
                                (replying reply_mixed) sample_key (js "notes"))
                             _ H))).
Defined.

(** ** The text the pattern extracts, under the JSON grammar *)

Lemma elements_array (fuel : nat) :
  forall s acc v r,
    JSON.elements fuel s acc = Some (v, r) -> exists l, v = JArray l.
Proof.
  induction fuel as [|fuel IH]; intros s acc v r; cbn [JSON.elements];
    [discriminate|].
  destruct (JSON.value fuel s) as [[v1 r1]|]; [|discriminate].
  destruct (JSON.expect 44 (JSON.skip_ws r1)) as [r2|].
  - apply IH.
  - destruct (JSON.expect 93 (JSON.skip_ws r1)) as [r2|]; [|discriminate].
    intros [= <- _]. now eexists.
Qed.

Lemma parse_bracket_array (rest : jstring) (v : json) :
  JSON.parse (lbracket :: rest) = Ok v -> exists elements, v = JArray elements.
Proof.
  unfold JSON.parse.
  change (JSON.skip_ws (lbracket :: rest)) with (lbracket :: rest).
  destruct (JSON.value _ _) as [[v1 r1]|] eqn:E; [|discriminate].
  destruct (JSON.skip_ws r1); [|discriminate]. intros [= <-].
  revert E. generalize (2 * length (lbracket :: rest) + 2). intros fuel.
  destruct fuel as [|fuel]; cbn [JSON.value]; [discriminate|].
  change (N.eqb lbracket 91) with true. cbv iota.
  destruct (JSON.expect 93 (JSON.skip_ws rest)) as [r|].
  - intros [= <- _]. now exists [].
  - apply elements_array.
Qed.

(** X11: with the grammar of JSON, the text that the pattern extracts from
    a reply either does not parse or parses as an array: its first character
    is an opening bracket.  The test [Array.isArray] of the service never
    fails on it, so that the outcome of the validation is decided by the
    filter alone. *)
Theorem extracted_text_parses_as_array (reply jsonMatch0 : jstring) (v : json) :
  match_json_array reply = Some jsonMatch0 ->
  JSON.parse jsonMatch0 = Ok v ->
  exists elements,
    v = JArray elements /\
    ClaudeService.validateFlashcards v =
    match filter ClaudeService.isValidCard elements with
    | [] => Throw (Error (js "No valid flashcards found in response"))
    | valid => Ok valid
    end.
Proof.
  intros Hmatch Hparse.
  destruct (match_json_array_some _ _ Hmatch) as (pre & mid & post & _ & _ & _ & ->).
  destruct (parse_bracket_array _ _ Hparse) as [elements ->].
  exists elements. split; [reflexivity | apply validateFlashcards_array].
Qed.

Lemma extracted_text_parses_as_array_witness :
  match_json_array reply_mixed = Some reply_mixed_match /\
  JSON.parse reply_mixed_match = Ok (JArray reply_mixed_array) /\
  ClaudeService.validateFlashcards (JArray reply_mixed_array) =
  Ok [card_of "Q1" "A1"; card_of "Q4" "A4"].
Proof.
  assert (H1 : match_json_array reply_mixed = Some reply_mixed_match)
    by (vm_compute; reflexivity).
  assert (H2 : JSON.parse reply_mixed_match = Ok (JArray reply_mixed_array))
    by (vm_compute; reflexivity).
  refine (conj H1 (conj H2 _)).
  destruct (extracted_text_parses_as_array _ _ _ H1 H2) as (elements & E & Hv).
  rewrite Hv. injection E as <-. vm_compute. reflexivity.
Defined.

(** ** The outcomes of an upload to the model (FileUpload.handleUpload) *)

Section UploadOutcomes.

Variable JSON_parse : jstring -> result json.
Variable fetch : ClaudeService.Request -> ClaudeService.fetch_outcome.
Variable readFileContent : File -> result jstring.

(** X12: without a selected file, or with an API key that is blank,
    [handleUpload] touches nothing: the stored key and the state are as
    before, one destructive toast is shown, and neither the file reader nor
    the network nor the parser has any part in the result. *)
Theorem handleUpload_guards (st : ClaudeService.storage) (s : FileUpload.State) :
  FileUpload.file s = None \/ nonblank (FileUpload.apiKey s) = false ->
  (exists t,
     FileUpload.handleUpload JSON_parse fetch readFileContent st s =
     (st, s, [FileUpload.ShowToast t]) /\
     toast_variant t = Destructive) /\
  (forall parse' fetch' read',
     FileUpload.handleUpload parse' fetch' read' st s =
     FileUpload.handleUpload JSON_parse fetch readFileContent st s).
Proof.
  intros Hguard. unfold FileUpload.handleUpload.
  destruct (FileUpload.file s) as [f|].
  - destruct Hguard as [H|H]; [discriminate H|]. rewrite H. cbn [negb].
    split; [eexists; split; reflexivity | reflexivity].
  - split; [eexists; split; reflexivity | reflexivity].
Qed.

(** X13: past its two guards, [handleUpload] stores the typed key before it
    reads the file, so that the key stays stored when the processing fails;
    it always ends with [isProcessing] false and the progress at 100; and it
    clears the selected file exactly when the service returned cards, keeping
    it for another try otherwise. *)
Theorem handleUpload_final_state (st : ClaudeService.storage)
    (s : FileUpload.State) (f : File) :
  FileUpload.file s = Some f ->
  nonblank (FileUpload.apiKey s) = true ->
  let r := FileUpload.handleUpload JSON_parse fetch readFileContent st s in
  let processed :=
    fileContent <- readFileContent f ;;
    ClaudeService.generateFlashcards JSON_parse fetch
      (Some (FileUpload.apiKey s)) fileContent in
  ClaudeService.getApiKey (fst (fst r)) = Some (FileUpload.apiKey s) /\
  FileUpload.isProcessing (snd (fst r)) = false /\
  FileUpload.progress (snd (fst r)) = 100%Z /\
  FileUpload.apiKey (snd (fst r)) = FileUpload.apiKey s /\
  FileUpload.file (snd (fst r)) =
  match processed with
  | Ok _ => None
  | Throw _ => Some f
  end.
Proof.
  intros Hfile Hkey. cbn zeta. unfold FileUpload.handleUpload.
  rewrite Hfile, Hkey. cbn [negb]. unfold ClaudeService.saveApiKey.
  destruct (readFileContent f) as [content|e]; cbn [bind];
    [|repeat split].
  destruct (ClaudeService.generateFlashcards _ _ _ _) as [[|card cards]|e] eqn:E;
    [|repeat split..].
  now apply generateFlashcards_nonempty in E.
Qed.

(** X14: past its guards, [handleUpload] shows exactly one toast.  Either
    it hands the cards of the service to the page, once, not an empty list
    and each card well formed, and the toast is "Success!"; or it hands over
    nothing and the toast is "Processing failed", whose text is the message
    of the error that the file reader or the service threw, or "Failed to
    process document" when the reader failed with something that is not an
    error. *)
Theorem handleUpload_effects (st : ClaudeService.storage)
    (s : FileUpload.State) (f : File) :
  FileUpload.file s = Some f ->
  nonblank (FileUpload.apiKey s) = true ->
  let effects :=
    snd (FileUpload.handleUpload JSON_parse fetch readFileContent st s) in
  let processed :=
    fileContent <- readFileContent f ;;
    ClaudeService.generateFlashcards JSON_parse fetch
      (Some (FileUpload.apiKey s)) fileContent in
  length (upload_toasts effects) = 1 /\
  match processed with
  | Ok cards =>
      generated effects = [cards] /\ cards <> [] /\
      Forall well_formed_card cards /\
      map title (upload_toasts effects) = [js "Success!"]
  | Throw e =>
      generated effects = [] /\
      upload_toasts effects =
      [ {| title := js "Processing failed";
           description :=
             match e with
             | Error message => message
             | NonError => js "Failed to process document"
             end;
           toast_variant := Destructive |} ] /\
      (e = NonError -> readFileContent f = Throw NonError)
  end.
Proof.
  intros Hfile Hkey. cbn zeta. unfold FileUpload.handleUpload.
  rewrite Hfile, Hkey. cbn [negb]. unfold ClaudeService.saveApiKey.
  destruct (readFileContent f) as [content|e]; cbn [bind];
    [|repeat split; now intros ->].
  destruct (ClaudeService.generateFlashcards _ _ _ _) as [[|card cards]|e] eqn:E.
  - now apply generateFlashcards_nonempty in E.
  - cbn [length Nat.ltb Nat.leb snd]. repeat split; try discriminate.
    exact (generateFlashcards_ok_well_formed JSON_parse fetch _ _ _ E).
  - repeat split. intros ->.
    now apply generateFlashcards_never_nonerror in E.
Qed.

End UploadOutcomes.

(** X15: the only request [handleUpload] can cause is the one for the text of
    the selected file, under the key as it was typed (it is not trimmed) and
    to the address of the service: two networks that answer this request
    alike give the same outcome, whatever key was stored before. *)
Theorem handleUpload_single_request
    (JSON_parse : jstring -> result json)
    (fetch fetch' : ClaudeService.Request -> ClaudeService.fetch_outcome)
    (readFileContent : File -> result jstring)
    (st st' : ClaudeService.storage) (s : FileUpload.State)
    (f : File) (fileContent : jstring) :
  FileUpload.file s = Some f ->
  readFileContent f = Ok fileContent ->
  fetch {| ClaudeService.url := js "https://api.anthropic.com/v1/messages";
           ClaudeService.x_api_key := FileUpload.apiKey s;
           ClaudeService.content := fileContent |} =
  fetch' {| ClaudeService.url := js "https://api.anthropic.com/v1/messages";
            ClaudeService.x_api_key := FileUpload.apiKey s;
            ClaudeService.content := fileContent |} ->
  nonblank (FileUpload.apiKey s) = true ->
  FileUpload.handleUpload JSON_parse fetch readFileContent st s =
  FileUpload.handleUpload JSON_parse fetch' readFileContent st' s.
Proof.
  intros Hfile Hread Hsame Hkey. unfold FileUpload.handleUpload.
  rewrite Hfile, Hkey, Hread. cbn [negb bind].
  unfold ClaudeService.saveApiKey, ClaudeService.generateFlashcards,
    ClaudeService.getApiKey.
  destruct (FileUpload.apiKey s) as [|c key] eqn:Ek; [discriminate Hkey|].
  change ClaudeService.BASE_URL with (js "https://api.anthropic.com/v1/messages").
  now rewrite Hsame.
Qed.

Lemma handleUpload_guards_witness :
  (FileUpload.file upload_empty = None \/
   nonblank (FileUpload.apiKey upload_empty) = false) /\
  FileUpload.handleUpload JSON.parse (replying reply_mixed) reads_notes None
    upload_empty =
  FileUpload.handleUpload JSON.parse (replying reply_blank)
    (fun _ => Throw NonError) None upload_empty.
Proof.
  assert (H : FileUpload.file upload_empty = None \/
              nonblank (FileUpload.apiKey upload_empty) = false)
    by (left; reflexivity).
  refine (conj H _).
  exact (proj2 (handleUpload_guards JSON.parse (replying reply_blank)
                  (fun _ => Throw NonError) None upload_empty H)
               JSON.parse (replying reply_mixed) reads_notes).
Defined.

Lemma handleUpload_final_state_witness :
  FileUpload.file upload_ready = Some notes_txt /\
  nonblank (FileUpload.apiKey upload_ready) = true /\
  ClaudeService.getApiKey
    (fst (fst (FileUpload.handleUpload JSON.parse (replying reply_blank)
                 reads_notes None upload_ready))) = Some (js "sk-ant-sample") /\
  FileUpload.file
    (snd (fst (FileUpload.handleUpload JSON.parse (replying reply_blank)
                 reads_notes None upload_ready))) = Some notes_txt.
Proof.
  assert (H1 : FileUpload.file upload_ready = Some notes_txt) by reflexivity.
  assert (H2 : nonblank (FileUpload.apiKey upload_ready) = true)
    by (vm_compute; reflexivity).
  refine (conj H1 (conj H2 _)).
  destruct (handleUpload_final_state JSON.parse (replying reply_blank)
              reads_notes None upload_ready notes_txt H1 H2)
    as (Hkey & _ & _ & _ & Hfile).
  split; [exact Hkey|]. rewrite Hfile. vm_compute. reflexivity.
Defined.

Lemma handleUpload_effects_witness :
  FileUpload.file upload_ready = Some notes_txt /\
  nonblank (FileUpload.apiKey upload_ready) = true /\
  length
    (upload_toasts
       (snd (FileUpload.handleUpload JSON.parse (replying reply_mixed)
               reads_notes None upload_ready))) = 1.
Proof.
  assert (H1 : FileUpload.file upload_ready = Some notes_txt) by reflexivity.
  assert (H2 : nonblank (FileUpload.apiKey upload_ready) = true)
    by (vm_compute; reflexivity).
  refine (conj H1 (conj H2 _)).
  exact (proj1 (handleUpload_effects JSON.parse (replying reply_mixed)
                  reads_notes None upload_ready notes_txt H1 H2)).
Defined.

Lemma handleUpload_single_request_witness :
  FileUpload.file upload_ready = Some notes_txt /\
  reads_notes notes_txt = Ok (js "notes") /\
  nonblank (FileUpload.apiKey upload_ready) = true /\
  FileUpload.handleUpload JSON.parse (replying reply_mixed) reads_notes None
    upload_ready =
  FileUpload.handleUpload JSON.parse replying_to_sample_key reads_notes
    (Some (js "an older key")) upload_ready.
Proof.
  assert (H1 : FileUpload.file upload_ready = Some notes_txt) by reflexivity.
  assert (H2 : reads_notes notes_txt = Ok (js "notes")) by reflexivity.
  assert (H3 : nonblank (FileUpload.apiKey upload_ready) = true)
    by (vm_compute; reflexivity).
  refine (conj H1 (conj H2 (conj H3 _))).
  apply (handleUpload_single_request JSON.parse (replying reply_mixed)
           replying_to_sample_key reads_notes None (Some (js "an older key"))
           upload_ready notes_txt (js "notes") H1 H2);
    [vm_compute; reflexivity | exact H3].
Defined.

(** ** Moving through the cards (StudyMode) *)

Lemma nextCard_range (cards : list Index.FlashcardData) (i : Z) :
  (0 <= i < Z.of_nat (length cards))%Z ->
  (0 <= StudyMode.nextCard cards i < Z.of_nat (length cards))%Z.
Proof.
  intros Hi. rewrite nextCard_mod by assumption. apply Z.mod_pos_bound. lia.
Qed.

Lemma prevCard_range (cards : list Index.FlashcardData) (i : Z) :
  (0 <= i < Z.of_nat (length cards))%Z ->
  (0 <= StudyMode.prevCard cards i < Z.of_nat (length cards))%Z.
Proof.
  intros Hi. rewrite prevCard_mod by assumption. apply Z.mod_pos_bound. lia.
Qed.

Lemma nextCard_iter (cards : list Index.FlashcardData) (i : Z) (k : nat) :
  (0 <= i < Z.of_nat (length cards))%Z ->
  Nat.iter k (StudyMode.nextCard cards) i =
  ((i + Z.of_nat k) mod Z.of_nat (length cards))%Z.
Proof.
  intros Hi. induction k as [|k IH].
  - cbn. rewrite Z.add_0_r. symmetry. now apply Z.mod_small.
  - rewrite Nat.iter_succ, IH.
    rewrite nextCard_mod by (apply Z.mod_pos_bound; lia).
    rewrite Zplus_mod_idemp_l. f_equal. lia.
Qed.

(** X16: on a list that is not empty and from a valid index, [nextCard] and
    [prevCard] stay within the list and undo each other, and [nextCard]
    applied as many times as there are cards comes back to the card it
    started from. *)
Theorem nextCard_prevCard_inverse (cards : list Index.FlashcardData) (i : Z) :
  (0 <= i < Z.of_nat (length cards))%Z ->
  (0 <= StudyMode.nextCard cards i < Z.of_nat (length cards))%Z /\
  (0 <= StudyMode.prevCard cards i < Z.of_nat (length cards))%Z /\
  StudyMode.prevCard cards (StudyMode.nextCard cards i) = i /\
  StudyMode.nextCard cards (StudyMode.prevCard cards i) = i /\
  Nat.iter (length cards) (StudyMode.nextCard cards) i = i.
Proof.
  intros Hi.
  pose proof (nextCard_range cards i Hi) as Hn.
  pose proof (prevCard_range cards i Hi) as Hp.
  split; [assumption|]. split; [assumption|]. split; [|split].
  - rewrite prevCard_mod by assumption. rewrite nextCard_mod by assumption.
    destruct (Z.eq_dec (i + 1) (Z.of_nat (length cards))) as [E|E].
    + rewrite E, Z.mod_same by lia.
      rewrite Z.mod_small; lia.
    + rewrite (Z.mod_small (i + 1)) by lia.
      replace (i + 1 - 1 + Z.of_nat (length cards))%Z
        with (i + 1 * Z.of_nat (length cards))%Z by lia.
      rewrite Z.mod_add by lia. apply Z.mod_small. lia.
  - rewrite nextCard_mod by assumption. rewrite prevCard_mod by assumption.
    destruct (Z.eq_dec i 0) as [->|E].
    + rewrite (Z.mod_small (0 - 1 + Z.of_nat (length cards))) by lia.
      replace (0 - 1 + Z.of_nat (length cards) + 1)%Z
        with (Z.of_nat (length cards)) by lia.
      apply Z.mod_same. lia.
    + replace (i - 1 + Z.of_nat (length cards))%Z
        with (i - 1 + 1 * Z.of_nat (length cards))%Z by lia.
      rewrite Z.mod_add by lia. rewrite (Z.mod_small (i - 1)) by lia.
      rewrite Z.mod_small; lia.
  - rewrite nextCard_iter by assumption.
    replace (i + Z.of_nat (length cards))%Z
      with (i + 1 * Z.of_nat (length cards))%Z by lia.
    rewrite Z.mod_add by lia. apply Z.mod_small. lia.
Qed.

Lemma nextCard_prevCard_inverse_witness :
  (0 <= 1 < Z.of_nat (length (Index.cards Index.initial)))%Z /\
  StudyMode.prevCard (Index.cards Index.initial)
    (StudyMode.nextCard (Index.cards Index.initial) 1) = 1%Z.
Proof.
  assert (H : (0 <= 1 < Z.of_nat (length (Index.cards Index.initial)))%Z)
    by (cbn; lia).
  refine (conj H _).
  exact (proj1 (proj2 (proj2 (nextCard_prevCard_inverse
                                (Index.cards Index.initial) 1 H)))).
Defined.

(** ** The page and its study view (Index and StudyMode together) *)

Lemma app_step_valid (e : App.event) (s : App.State) :
  index_valid s -> index_valid (App.step e s).
Proof.
  unfold index_valid. intros Hs.
  destruct e as [e'| | | ]; cbn [App.step].
  - cbn [App.page App.currentIndex].
    destruct (step_appends e' (App.page s)) as (added & ->).
    rewrite length_app.
    destruct (Index.mode (App.page s)), (Index.mode (Index.step e' (App.page s)));
      lia.
  - destruct (App.navigable (App.page s)); [|assumption].
    now apply nextCard_range.
  - destruct (App.navigable (App.page s)); [|assumption].
    now apply prevCard_range.
  - destruct (App.navigable (App.page s)); [|assumption].
    unfold StudyMode.resetProgress. cbn [App.page App.currentIndex]. lia.
Qed.

Lemma app_run_valid (events : list App.event) (s : App.State) :
  index_valid s -> index_valid (App.run events s).
Proof.
  unfold App.run. revert s.
  induction events as [|e events IH]; intros s Hs; cbn [fold_left];
    [assumption|].
  apply IH. now apply app_step_valid.
Qed.

Lemma index_valid_currentCard (s : App.State) :
  index_valid s -> exists card, App.currentCard s = Some card.
Proof.
  unfold index_valid, App.currentCard. intros Hs.
  destruct (Z.ltb_spec (App.currentIndex s) 0) as [Hneg|_]; [lia|].
  destruct (nth_error (Index.cards (App.page s)) (Z.to_nat (App.currentIndex s)))
    as [card|] eqn:E; [now exists card|].
  apply nth_error_None in E. lia.
Qed.

(** X17: the study view always has a card to show.  Whatever the user does,
    in any order (adding cards by hand or from a document, switching between
    the views, going to the next or the previous card, resetting), the
    current index stays within the list, so that [cards[currentIndex]] is a
    card and the progress line reads "Card k of n" with k between 1 and n;
    this holds from the first page on and from every state in which the
    index is valid. *)
Theorem current_card_always_defined (events : list App.event) :
  (forall s,
     index_valid s ->
     index_valid (App.run events s) /\
     exists card, App.currentCard (App.run events s) = Some card) /\
  index_valid (App.run events App.initial) /\
  (exists card, App.currentCard (App.run events App.initial) = Some card) /\
  (1 <= App.currentIndex (App.run events App.initial) + 1
     <= Z.of_nat (length (Index.cards (App.page (App.run events App.initial)))))%Z.
Proof.
  assert (Hinit : index_valid App.initial) by (unfold index_valid; cbn; lia).
  pose proof (app_run_valid events App.initial Hinit) as Hrun.
  split; [|split; [assumption|split]].
  - intros s Hs. pose proof (app_run_valid events s Hs) as H.
    split; [assumption | now apply index_valid_currentCard].
  - now apply index_valid_currentCard.
  - unfold index_valid in Hrun. lia.
Qed.

Lemma current_card_always_defined_witness :
  index_valid App.initial /\
  App.currentCard
    (App.run [ App.Next;
               App.Page (Index.OnAddCardsFromDocument (fun _ => 1700000000500%Z)
                           [ {| Generated.front := js "Q2";
                                Generated.back := js "A2" |} ]);
               App.Next; App.Next; App.Prev ]
       App.initial) =
  Some {| Index.id := js "1700000000500-0"; Index.front := js "Q2";
          Index.back := js "A2" |}.
Proof.
  assert (H : index_valid App.initial) by (unfold index_valid; cbn; lia).
  refine (conj H _).
  destruct (proj1 (current_card_always_defined
                     [ App.Next;
                       App.Page (Index.OnAddCardsFromDocument
                                   (fun _ => 1700000000500%Z)
                                   [ {| Generated.front := js "Q2";
                                        Generated.back := js "A2" |} ]);
                       App.Next; App.Next; App.Prev ]) App.initial H)
    as (_ & card & Hcard).
  rewrite Hcard. revert Hcard. vm_compute. intros <-. reflexivity.
Defined.

(** ** The identifiers of the cards of a document (Index.addCardsFromDocument) *)

Lemma map_injective {A B : Type} (f : A -> B) (l l' : list A) :
  (forall a b, f a = f b -> a = b) -> map f l = map f l' -> l = l'.
Proof.
  intros Hf. revert l'.
  induction l as [|x l IH]; intros [|y l']; cbn; try discriminate;
    [reflexivity|].
  intros [= Hxy Hl]. f_equal; [now apply Hf | now apply IH].
Qed.

Lemma js_injective (s t : string) : js s = js t -> s = t.
Proof.
  unfold js. intros H.
  apply map_injective in H.
  - rewrite <- (string_of_list_ascii_of_string s),
      <- (string_of_list_ascii_of_string t). now rewrite H.
  - intros a b Hab.
    rewrite <- (ascii_N_embedding a), <- (ascii_N_embedding b).
    now rewrite Hab.
Qed.

Lemma to_int_not_nil (z : Z) :
  Z.to_int z <> Decimal.Pos Decimal.Nil /\ Z.to_int z <> Decimal.Neg Decimal.Nil.
Proof.
  destruct z as [|p|p]; cbn; split; try discriminate;
    intros [= H]; now apply DecimalPos.Unsigned.to_uint_nonnil in H.
Qed.

Lemma decimal_injective (a b : Z) : decimal a = decimal b -> a = b.
Proof.
  unfold decimal. intros H. apply js_injective in H.
  apply (f_equal NilZero.int_of_string) in H.
  destruct (to_int_not_nil a) as [Ha1 Ha2].
  destruct (to_int_not_nil b) as [Hb1 Hb2].
  rewrite !NilZero.isi in H by assumption.
  injection H as H. now apply DecimalZ.to_int_inj.
Qed.

Lemma uint_digits_no_dash (u : Decimal.uint) :
  ~ In 45%N (js (NilEmpty.string_of_uint u)).
Proof.
  unfold js.
  induction u; cbn [NilEmpty.string_of_uint list_ascii_of_string map In];
    [tauto| | | | | | | | | | ];
    intros [H|H]; try discriminate H; now apply IHu.
Qed.

Lemma decimal_nat_no_dash (n : nat) : ~ In 45%N (decimal (Z.of_nat n)).
Proof.
  unfold decimal.
  destruct (Z.of_nat n) as [|p|p] eqn:E; [| |lia].
  - cbn. intros [H|[]]. discriminate H.
  - cbn [Z.to_int NilZero.string_of_int NilZero.string_of_uint].
    pose proof (DecimalPos.Unsigned.to_uint_nonnil p) as Hnil.
    replace (NilZero.string_of_uint (Pos.to_uint p))
      with (NilEmpty.string_of_uint (Pos.to_uint p))
      by (destruct (Pos.to_uint p); [now elim Hnil | reflexivity..]).
    apply uint_digits_no_dash.
Qed.

(** Two strings that end with a dash and a text without dashes are equal
    only if these texts are. *)
Lemma after_last_dash (a a' d d' : jstring) :
  a ++ 45%N :: d = a' ++ 45%N :: d' ->
  ~ In 45%N d -> ~ In 45%N d' -> d = d'.
Proof.
  revert a'. induction a as [|x a IH]; intros [|y a']; cbn.
  - now intros [= ->].
  - intros [= <- ->] Hd _. exfalso. apply Hd.
    rewrite in_app_iff. right. now left.
  - intros [= -> <-] _ Hd'. exfalso. apply Hd'.
    rewrite in_app_iff. right. now left.
  - intros [= _ H]. exact (IH a' H).
Qed.

Lemma mapi_In {A B : Type} (f : A -> nat -> B) (i : nat) (l : list A) (b : B) :
  In b (Index.mapi f i l) -> exists x k, i <= k /\ b = f x k.
Proof.
  revert i. induction l as [|x l IH]; intros i; cbn; [intros []|].
  intros [<-|H].
  - exists x, i. split; [lia | reflexivity].
  - destruct (IH (S i) H) as (y & k & Hk & ->).
    exists y, k. split; [lia | reflexivity].
Qed.

(** X18: the cards that [addCardsFromDocument] adds for one document have
    identifiers that differ from one another, whatever the clock gives
    during the call: the identifier ends with the position of the card. *)
Theorem document_card_ids_distinct (clock : nat -> Z)
    (newCards : list Generated.card) (s : Index.State) :
  exists added,
    Index.cards (Index.addCardsFromDocument clock newCards s) =
    Index.cards s ++ added /\
    length added = length newCards /\
    NoDup (map Index.id added).
Proof.
  eexists. split; [reflexivity|]. split; [apply mapi_length|].
  generalize 0. induction newCards as [|card rest IH]; intros i; cbn.
  - constructor.
  - constructor; [|apply IH].
    intros Hin. apply in_map_iff in Hin.
    destruct Hin as (c & Hid & Hc).
    apply mapi_In in Hc. destruct Hc as (x & k & Hk & ->).
    cbn [Index.id] in Hid.
    apply after_last_dash in Hid; try apply decimal_nat_no_dash.
    apply decimal_injective in Hid. lia.
Qed.

(** ** What the form hands to the page (CreateCardForm) *)



